(** * The Azure blob file system of duckdb_azure

    A shallow embedding of [src/azure_blob_filesystem.cpp] and the
    properties of it that the specification states.

    The file is the glue between a host query engine (DuckDB) and the Azure
    storage SDK.  Both are external: what the source uses of them is
    gathered in three interfaces ([HostEnv], [AzureSdk], [RepoDecls]) over
    which every definition is parametric.  The C++ is modelled with

    - unsigned 64-bit integers ([idx_t], [size_t]) as [Z] with the
      wrap-around written out ([u64]), [int64_t] through [s64];
    - memory regions (the caller's buffer, the read-ahead buffer) as
      [list byte], an access outside a region being a [Fault];
    - exceptions and mutable state through the monad [M]: a computation
      takes a state and ends in [Ok], in [Throw] (with the state as the
      code left it when it threw), in [Fault] (undefined behaviour) or
      in [OutOfFuel] (a loop that was cut off). *)

From Stdlib Require Import ZArith Lia String Ascii List Bool.
From stdpp Require Import base list gmap strings.

Open Scope string_scope.
Open Scope Z_scope.

(** ** Machine integers *)

(** [idx_t] and [size_t]: unsigned, 64 bits. *)
Definition u64 (z : Z) : Z := z mod 2 ^ 64.

(** Conversion to [int64_t]. *)
Definition s64 (z : Z) : Z := (z + 2 ^ 63) mod 2 ^ 64 - 2 ^ 63.

(** [MinValue<idx_t>(a, b)]: both arguments are converted to [idx_t]. *)
Definition MinValue_idx_t (a b : Z) : Z := Z.min (u64 a) (u64 b).

(** [std::string::npos], the value of [size_t(-1)]. *)
Definition npos : Z := 2 ^ 64 - 1.

(** A value used as a condition: non-zero is true. *)
Definition truthy (z : Z) : bool := negb (z =? 0).

(** ** Exceptions and results *)

Inductive exception : Type :=
| InternalException (msg : string)
| NotImplementedException (msg : string)
| IOException (msg : string)
| StorageException (ErrorCode ReasonPhrase Message : string)
| std_exception (what : string)
| foreign_exception.

(** [e.what()] for the handler [catch (std::exception &e)]. *)
Definition what (e : exception) : string :=
  match e with
  | InternalException m | NotImplementedException m | IOException m => m
  | StorageException _ _ m => m
  | std_exception w => w
  | foreign_exception => ""
  end.

(** Everything but [foreign_exception] derives from [std::exception]. *)
Definition is_std_exception (e : exception) : bool :=
  match e with foreign_exception => false | _ => true end.

(** The result of a call into code that keeps no state of ours. *)
Inductive thrown (A : Type) : Type :=
| Returns (a : A)
| Throws (e : exception).
Arguments Returns {A} a.
Arguments Throws {A} e.

Inductive outcome (S A : Type) : Type :=
| Ok (a : A) (s : S)
| Throw (e : exception) (s : S)
| Fault
| OutOfFuel.
Arguments Ok {S A} a s.
Arguments Throw {S A} e s.
Arguments Fault {S A}.
Arguments OutOfFuel {S A}.

Definition M (S A : Type) : Type := S -> outcome S A.

Definition ret {S A} (a : A) : M S A := fun s => Ok a s.

Definition bind {S A B} (m : M S A) (k : A -> M S B) : M S B :=
  fun s =>
    match m s with
    | Ok a s' => k a s'
    | Throw e s' => Throw e s'
    | Fault => Fault
    | OutOfFuel => OutOfFuel
    end.

Definition throw {S A} (e : exception) : M S A := fun s => Throw e s.
Definition fault {S A} : M S A := fun _ => Fault.
Definition out_of_fuel {S A} : M S A := fun _ => OutOfFuel.
Definition get {S} : M S S := fun s => Ok s s.
Definition modify {S} (f : S -> S) : M S unit := fun s => Ok tt (f s).

(** A call of external code: its exception, if any, is thrown on. *)
Definition call {S A} (r : thrown A) : M S A :=
  match r with Returns a => ret a | Throws e => throw e end.

(** [try { body } catch (...) { handler }]. *)
Definition try_catch_all {S A} (body : M S A) (handler : M S A) : M S A :=
  fun s =>
    match body s with
    | Throw _ s' => handler s'
    | r => r
    end.

Notation "'do' x <- m ; k" := (bind m (fun x => k))
  (at level 10, x name, m at level 100, k at level 200).
Notation "'run' m ; k" := (bind m (fun _ => k))
  (at level 10, m at level 100, k at level 200).

(** ** Strings *)

(** [s.find_first_of(chars)]: the first position of [s] that holds one of
    [chars]; [None] is [npos]. *)
Fixpoint mem_char (c : ascii) (chars : string) : bool :=
  match chars with
  | EmptyString => false
  | String d chars' => if Ascii.eqb c d then true else mem_char c chars'
  end.

Fixpoint find_first_of (s chars : string) : option nat :=
  match s with
  | EmptyString => None
  | String c s' =>
      if mem_char c chars then Some 0%nat
      else option_map S (find_first_of s' chars)
  end.

(** Whether [needle] occurs in [s] at position [i]. *)
Definition occurs_at (s needle : string) (i : nat) : bool :=
  String.eqb (substring i (String.length needle) s) needle.

(** [s.rfind(needle, pos)]: the last position at or before [pos] where
    [needle] occurs in [s], [npos] when there is none. *)
Fixpoint rfind_from (s needle : string) (i : nat) : Z :=
  if occurs_at s needle i then Z.of_nat i
  else match i with
       | O => npos
       | S j => rfind_from s needle j
       end.

Definition rfind (s needle : string) (pos : nat) : Z :=
  if (String.length s <? String.length needle)%nat then npos
  else rfind_from s needle (Nat.min pos (String.length s - String.length needle)).

(** ** Memory regions *)

Definition region : Type := list Byte.byte.

(** Reading [len] bytes at [off]. *)
Definition mem_read (r : region) (off len : Z) : option (list Byte.byte) :=
  if (0 <=? off) && (0 <=? len) && (off + len <=? Z.of_nat (List.length r))
  then Some (take (Z.to_nat len) (drop (Z.to_nat off) r))
  else None.

(** Writing [bs] at [off]. *)
Definition mem_write (r : region) (off : Z) (bs : list Byte.byte) : option region :=
  if (0 <=? off) && (off + Z.of_nat (List.length bs) <=? Z.of_nat (List.length r))
  then Some (take (Z.to_nat off) r ++ bs
             ++ drop (Z.to_nat off + List.length bs) r)%list
  else None.

(** ** Host declarations *)

Inductive FileCompressionType : Type :=
| AUTO_DETECT | UNCOMPRESSED | GZIP | ZSTD.

Definition FileCompressionType_eqb (a b : FileCompressionType) : bool :=
  match a, b with
  | AUTO_DETECT, AUTO_DETECT | UNCOMPRESSED, UNCOMPRESSED
  | GZIP, GZIP | ZSTD, ZSTD => true
  | _, _ => false
  end.

Inductive FileLockType : Type :=
| NO_LOCK | READ_LOCK | WRITE_LOCK.

(** What the source uses of the host: the [FileFlags] constants, whether
    [D_ASSERT] is compiled in, setting values and their conversions, the
    file opener with its two static lookups, the single-segment glob
    matcher [LikeFun::Glob] and [StringUtil::Split]. *)
Class HostEnv : Type := {
  FILE_FLAGS_READ : Z;
  FILE_FLAGS_WRITE : Z;
  FILE_FLAGS_DIRECT_IO : Z;
  DEBUG : bool;
  Value : Type;
  GetValue_int32_t : Value -> Z;
  GetValue_int64_t : Value -> Z;
  GetValue_idx_t : Value -> Z;
  GetValue_bool : Value -> bool;
  FileOpener : Type;
  TryGetCurrentSetting : option FileOpener -> string -> option Value;
  TryGetClientContext : option FileOpener -> bool;
  LikeFun_Glob : string -> string -> bool;
  StringUtil_Split : string -> string -> list string
}.

(** ** Data model *)

Record AzureReadOptions : Type := {
  transfer_concurrency : Z;
  transfer_chunk_size : Z;
  buffer_size : Z
}.

Record AzureParsedUrl : Type := {
  is_fully_qualified : bool;
  url_prefix : string;
  storage_account_name : string;
  endpoint : string;
  container : string;
  url_path : string
}.

(** ** The storage SDK *)

Record HttpRange : Type := {
  Offset : Z;
  Length : Z
}.

Record DownloadBlobToOptions : Type := {
  Range : HttpRange;
  Concurrency : Z;
  InitialChunkSize : Z;
  ChunkSize : Z
}.

Record ListBlobsOptions : Type := {
  Prefix : option string;
  ContinuationToken : option string
}.

Record ListBlobsPagedResponse : Type := {
  Blobs : list string;
  NextPageToken : option string
}.

(** The clients and the four requests the source sends.  [DownloadTo c n o]
    is the download of range [Range o] into a destination of [n] bytes: it
    returns the bytes it stored at the start of the destination. *)
Class AzureSdk : Type := {
  BlobServiceClient : Type;
  BlobContainerClient : Type;
  BlobClient : Type;
  Service_GetBlobContainerClient : BlobServiceClient -> string -> BlobContainerClient;
  GetBlockBlobClient : BlobContainerClient -> string -> BlobClient;
  GetProperties : BlobClient -> thrown Z;
  DownloadTo : BlobClient -> Z -> DownloadBlobToOptions -> thrown (list Byte.byte);
  ListBlobs : BlobContainerClient -> ListBlobsOptions -> thrown ListBlobsPagedResponse
}.

(** What the source uses of this repository's other files: the member
    initialisers of [AzureReadOptions], [ParseUrl],
    [ConnectToBlobStorageAccount], and the default arguments that the
    declaration of [OpenFile] gives to [lock], [compression] and
    [opener]. *)
Class RepoDecls `{HostEnv} `{AzureSdk} : Type := {
  AzureReadOptions_default : AzureReadOptions;
  ParseUrl : string -> thrown AzureParsedUrl;
  ConnectToBlobStorageAccount :
    option FileOpener -> string -> AzureParsedUrl -> thrown BlobServiceClient;
  OpenFile_default_lock : FileLockType;
  OpenFile_default_compression : FileCompressionType;
  OpenFile_default_opener : option FileOpener
}.

Section Model.
Context `{host : HostEnv} `{sdk : AzureSdk} `{repo : !RepoDecls}.

(** [D_ASSERT(cond)]: checked in a debug build only, where a failed
    assertion throws. *)
Definition D_ASSERT {S} (cond : bool) : M S unit :=
  if DEBUG && negb cond
  then throw (InternalException "Assertion triggered")
  else ret tt.

(** *** Reading the settings *)

Definition ParseAzureReadOptions (opener : option FileOpener) : AzureReadOptions :=
  let options := AzureReadOptions_default in
  let options :=
    match TryGetCurrentSetting opener "azure_read_transfer_concurrency" with
    | Some concurrency_val =>
        {| transfer_concurrency := GetValue_int32_t concurrency_val;
           transfer_chunk_size := transfer_chunk_size options;
           buffer_size := buffer_size options |}
    | None => options
    end in
  let options :=
    match TryGetCurrentSetting opener "azure_read_transfer_chunk_size" with
    | Some chunk_size_val =>
        {| transfer_concurrency := transfer_concurrency options;
           transfer_chunk_size := GetValue_int64_t chunk_size_val;
           buffer_size := buffer_size options |}
    | None => options
    end in
  let options :=
    match TryGetCurrentSetting opener "azure_read_buffer_size" with
    | Some buffer_size_val =>
        {| transfer_concurrency := transfer_concurrency options;
           transfer_chunk_size := transfer_chunk_size options;
           buffer_size := GetValue_idx_t buffer_size_val |}
    | None => options
    end in
  options.

(** *** The segment matcher *)

(** The inner loop of the [**] case: [while (key != key_end)], trying
    the rest of the pattern at [key] and moving one segment on. *)
Definition scan_key (try : list string -> bool) : list string -> bool :=
  fix scan (key : list string) : bool :=
    match key with
    | [] => false
    | _ :: key' => if try key then true else scan key'
    end.

(** [Match(key, key_end, pattern, pattern_end)] on the two remaining
    ranges.  Each turn of the outer loop is one unfolding. *)
Fixpoint Match (key pattern : list string) {struct pattern} : bool :=
  match key, pattern with
  | k :: key', p :: pattern' =>
      if String.eqb p "**" then
        match pattern' with
        | [] => true
        | _ :: _ => scan_key (fun key => Match key pattern') key
        end
      else if negb (LikeFun_Glob k p) then false
      else Match key' pattern'
  | [], [] => true
  | _, _ => false
  end.

(** *** The storage context and the session *)

Record AzureBlobContextState : Type := {
  read_options : AzureReadOptions;
  service_client : BlobServiceClient;
  is_valid : bool
}.

Definition AzureBlobContextState_new
    (client : BlobServiceClient) (azure_read_options : AzureReadOptions)
  : AzureBlobContextState :=
  {| read_options := azure_read_options;
     service_client := client;
     is_valid := true |}.

Definition GetBlobContainerClient
    (this : AzureBlobContextState) (blobContainerName : string)
  : BlobContainerClient :=
  Service_GetBlobContainerClient (service_client this) blobContainerName.

Definition IsValid (this : AzureBlobContextState) : bool := is_valid this.

Definition AzureBlobContextState_QueryEnd
    (this : AzureBlobContextState) : AzureBlobContextState :=
  {| read_options := read_options this;
     service_client := service_client this;
     is_valid := false |}.

(** A request sent to the service. *)
Inductive request : Type :=
| ReqGetProperties (c : BlobClient)
| ReqListBlobs (c : BlobContainerClient) (o : ListBlobsOptions).

(** The session: the context states allocated so far (a [shared_ptr] is
    the index of its object), the [registered_state] of the client
    context, and the requests sent so far, latest last. *)
Record Session : Type := {
  objects : list AzureBlobContextState;
  registered_state : gmap string nat;
  requests : list request
}.

Definition set_objects (f : list AzureBlobContextState -> list AzureBlobContextState)
    (w : Session) : Session :=
  {| objects := f (objects w);
     registered_state := registered_state w;
     requests := requests w |}.

Definition set_registered_state (f : gmap string nat -> gmap string nat)
    (w : Session) : Session :=
  {| objects := objects w;
     registered_state := f (registered_state w);
     requests := requests w |}.

Definition log_request (r : request) (w : Session) : Session :=
  {| objects := objects w;
     registered_state := registered_state w;
     requests := (requests w ++ [r])%list |}.

(** [std::make_shared]: a new object, at an address not in use. *)
Definition make_shared (c : AzureBlobContextState) : M Session nat :=
  fun w => Ok (List.length (objects w)) (set_objects (fun os => (os ++ [c])%list) w).

(** Following a pointer; a dangling one is undefined behaviour. *)
Definition deref (p : nat) : M Session AzureBlobContextState :=
  fun w =>
    match objects w !! p with
    | Some c => Ok c w
    | None => Fault
    end.

(** [AzureBlobContextState::QueryEnd] on the object at [p]. *)
Definition QueryEnd (p : nat) : M Session unit :=
  do this <- deref p;
  modify (set_objects (fun os => <[p := AzureBlobContextState_QueryEnd this]> os)).

(** [std::unordered_map::insert]: no effect on a key that is present. *)
Definition map_insert_new (k : string) (v : nat) (m : gmap string nat) : gmap string nat :=
  match m !! k with
  | Some _ => m
  | None => <[k := v]> m
  end.

Definition CreateStorageContext
    (opener : option FileOpener) (path : string) (parsed_url : AzureParsedUrl)
  : M Session nat :=
  let azure_read_options := ParseAzureReadOptions opener in
  do client <- call (ConnectToBlobStorageAccount opener path parsed_url);
  make_shared (AzureBlobContextState_new client azure_read_options).

Definition GetOrCreateStorageContext
    (opener : option FileOpener) (path : string) (parsed_url : AzureParsedUrl)
  : M Session nat :=
  let azure_context_caching :=
    match TryGetCurrentSetting opener "azure_context_caching" with
    | Some value => GetValue_bool value
    | None => true
    end in
  if azure_context_caching then
    (* [client_context->registered_state] on a null [client_context] *)
    if negb (TryGetClientContext opener) then fault
    else
      do w <- get;
      match registered_state w !! storage_account_name parsed_url with
      | None =>
          do result <- CreateStorageContext opener path parsed_url;
          run modify (set_registered_state
                        (map_insert_new (storage_account_name parsed_url) result));
          ret result
      | Some storage_account_it =>
          do azure_context_state <- deref storage_account_it;
          if negb (IsValid azure_context_state) then
            do result <- CreateStorageContext opener path parsed_url;
            run modify (set_registered_state
                          (fun m => <[storage_account_name parsed_url := result]> m));
            ret result
          else ret storage_account_it
      end
  else CreateStorageContext opener path parsed_url.

(** *** The file handle *)

(** The members of [AzureBlobStorageFileHandle].  [path], [flags],
    [length] and [read_options] carry the prefix [fh_]; a null
    [read_buffer] is the empty region. *)
Record AzureBlobStorageFileHandle : Type := {
  fh_path : string;
  fh_flags : Z;
  fh_length : Z;
  last_modified : Z;
  read_buffer : region;
  buffer_available : Z;
  buffer_idx : Z;
  file_offset : Z;
  buffer_start : Z;
  buffer_end : Z;
  blob_client : BlobClient;
  fh_read_options : AzureReadOptions
}.

Definition set_length (v : Z) (h : AzureBlobStorageFileHandle) :=
  {| fh_path := fh_path h; fh_flags := fh_flags h; fh_length := v;
     last_modified := last_modified h; read_buffer := read_buffer h;
     buffer_available := buffer_available h; buffer_idx := buffer_idx h;
     file_offset := file_offset h; buffer_start := buffer_start h;
     buffer_end := buffer_end h; blob_client := blob_client h;
     fh_read_options := fh_read_options h |}.

Definition set_read_buffer (v : region) (h : AzureBlobStorageFileHandle) :=
  {| fh_path := fh_path h; fh_flags := fh_flags h; fh_length := fh_length h;
     last_modified := last_modified h; read_buffer := v;
     buffer_available := buffer_available h; buffer_idx := buffer_idx h;
     file_offset := file_offset h; buffer_start := buffer_start h;
     buffer_end := buffer_end h; blob_client := blob_client h;
     fh_read_options := fh_read_options h |}.

Definition set_buffer_available (v : Z) (h : AzureBlobStorageFileHandle) :=
  {| fh_path := fh_path h; fh_flags := fh_flags h; fh_length := fh_length h;
     last_modified := last_modified h; read_buffer := read_buffer h;
     buffer_available := v; buffer_idx := buffer_idx h;
     file_offset := file_offset h; buffer_start := buffer_start h;
     buffer_end := buffer_end h; blob_client := blob_client h;
     fh_read_options := fh_read_options h |}.

Definition set_buffer_idx (v : Z) (h : AzureBlobStorageFileHandle) :=
  {| fh_path := fh_path h; fh_flags := fh_flags h; fh_length := fh_length h;
     last_modified := last_modified h; read_buffer := read_buffer h;
     buffer_available := buffer_available h; buffer_idx := v;
     file_offset := file_offset h; buffer_start := buffer_start h;
     buffer_end := buffer_end h; blob_client := blob_client h;
     fh_read_options := fh_read_options h |}.

Definition set_file_offset (v : Z) (h : AzureBlobStorageFileHandle) :=
  {| fh_path := fh_path h; fh_flags := fh_flags h; fh_length := fh_length h;
     last_modified := last_modified h; read_buffer := read_buffer h;
     buffer_available := buffer_available h; buffer_idx := buffer_idx h;
     file_offset := v; buffer_start := buffer_start h;
     buffer_end := buffer_end h; blob_client := blob_client h;
     fh_read_options := fh_read_options h |}.

Definition set_buffer_start (v : Z) (h : AzureBlobStorageFileHandle) :=
  {| fh_path := fh_path h; fh_flags := fh_flags h; fh_length := fh_length h;
     last_modified := last_modified h; read_buffer := read_buffer h;
     buffer_available := buffer_available h; buffer_idx := buffer_idx h;
     file_offset := file_offset h; buffer_start := v;
     buffer_end := buffer_end h; blob_client := blob_client h;
     fh_read_options := fh_read_options h |}.

Definition set_buffer_end (v : Z) (h : AzureBlobStorageFileHandle) :=
  {| fh_path := fh_path h; fh_flags := fh_flags h; fh_length := fh_length h;
     last_modified := last_modified h; read_buffer := read_buffer h;
     buffer_available := buffer_available h; buffer_idx := buffer_idx h;
     file_offset := file_offset h; buffer_start := buffer_start h;
     buffer_end := v; blob_client := blob_client h;
     fh_read_options := fh_read_options h |}.

(** [blob_client.GetProperties()] inside the constructor's handlers. *)
Definition GetProperties_or_IOException (path : string) (c : BlobClient) : M Session Z :=
  fun w =>
    let w := log_request (ReqGetProperties c) w in
    match GetProperties c with
    | Returns BlobSize => Ok BlobSize w
    | Throws (StorageException ErrorCode ReasonPhrase Message) =>
        Throw (IOException
                 ("AzureBlobStorageFileSystem open file '" ++ path
                  ++ "' failed with code'" ++ ErrorCode
                  ++ "',Reason Phrase: '" ++ ReasonPhrase
                  ++ "', Message: '" ++ Message ++ "'")) w
    | Throws e =>
        if is_std_exception e then
          Throw (IOException
                   ("AzureBlobStorageFileSystem could not open file: '" ++ path
                    ++ "', unknown error occurred, this could mean the credentials used were wrong. Original error message: '"
                    ++ what e ++ "' ")) w
        else Throw e w
    end.

(** The constructor of [AzureBlobStorageFileHandle].  The buffer that
    [new data_t[...]] allocates has no defined content; zeros stand for
    it. *)
Definition AzureBlobStorageFileHandle_new
    (path_p : string) (flags : Z) (blob_client : BlobClient)
    (read_options : AzureReadOptions)
  : M Session AzureBlobStorageFileHandle :=
  let this :=
    {| fh_path := path_p; fh_flags := flags; fh_length := 0;
       last_modified := 0; read_buffer := [];
       buffer_available := 0; buffer_idx := 0; file_offset := 0;
       buffer_start := 0; buffer_end := 0; blob_client := blob_client;
       fh_read_options := read_options |} in
  do BlobSize <- GetProperties_or_IOException path_p blob_client;
  let this := set_length (u64 BlobSize) this in
  if truthy (Z.land flags FILE_FLAGS_READ) then
    ret (set_read_buffer
           (repeat Byte.x00 (Z.to_nat (buffer_size read_options))) this)
  else ret this.

(** *** Opening *)

Definition CreateHandle
    (path : string) (flags : Z) (lock : FileLockType)
    (compression : FileCompressionType) (opener : option FileOpener)
  : M Session AzureBlobStorageFileHandle :=
  match opener with
  | None =>
      throw (InternalException
               "Cannot do Azure storage CreateHandle without FileOpener")
  | Some _ =>
      run D_ASSERT (FileCompressionType_eqb compression UNCOMPRESSED);
      do parsed_url <- call (ParseUrl path);
      do storage_context <- GetOrCreateStorageContext opener path parsed_url;
      do context <- deref storage_context;
      let container := GetBlobContainerClient context (container parsed_url) in
      let blob_client := GetBlockBlobClient container (url_path parsed_url) in
      AzureBlobStorageFileHandle_new path flags blob_client (read_options context)
  end.

Definition OpenFile
    (path : string) (flags : Z) (lock : FileLockType)
    (compression : FileCompressionType) (opener : option FileOpener)
  : M Session AzureBlobStorageFileHandle :=
  run D_ASSERT (FileCompressionType_eqb compression UNCOMPRESSED);
  if truthy (Z.land flags FILE_FLAGS_WRITE) then
    throw (NotImplementedException
             "Writing to Azure containers is currently not supported")
  else
    do handle <- CreateHandle path flags lock compression opener;
    ret handle.

Definition GetFileSize (afh : AzureBlobStorageFileHandle) : Z :=
  s64 (fh_length afh).

Definition GetLastModifiedTime (afh : AzureBlobStorageFileHandle) : Z :=
  last_modified afh.

Definition CanHandleFile (fpath : string) : bool :=
  u64 (rfind fpath "azure://" 0 * rfind fpath "az://" 0) =? 0.

Definition Seek (sfh : AzureBlobStorageFileHandle) (location : Z)
  : AzureBlobStorageFileHandle :=
  set_file_offset location sfh.

Definition FileSync {S} : M S unit :=
  throw (NotImplementedException
           "FileSync for Azure Storage files not implemented").

Definition FileExists (filename : string) : M Session bool :=
  try_catch_all
    (do sfh <- OpenFile filename FILE_FLAGS_READ OpenFile_default_lock
                 OpenFile_default_compression OpenFile_default_opener;
     if fh_length sfh =? 0 then ret false else ret true)
    (ret false).

(** *** Reading *)

(** Where a ranged fetch or a copy stores its bytes: in the caller's
    buffer at an offset ([(char * )buffer + off]) or at the start of the
    handle's [read_buffer]. *)
Inductive destination : Type :=
| to_buffer (off : Z)
| to_read_buffer.

(** One call of [DownloadTo]. *)
Record download : Type := {
  dl_client : BlobClient;
  dl_destination : destination;
  dl_size : Z;
  dl_options : DownloadBlobToOptions
}.

(** The state of a read: the handle, the caller's buffer, and the
    downloads requested so far, latest last. *)
Record ReadState : Type := {
  hfh : AzureBlobStorageFileHandle;
  buffer : region;
  downloads : list download
}.

Definition set_hfh (f : AzureBlobStorageFileHandle -> AzureBlobStorageFileHandle)
    (st : ReadState) : ReadState :=
  {| hfh := f (hfh st); buffer := buffer st; downloads := downloads st |}.

Definition log_download (d : download) (st : ReadState) : ReadState :=
  {| hfh := hfh st; buffer := buffer st;
     downloads := (downloads st ++ [d])%list |}.

(** Storing [bs] at a destination. *)
Definition store (dst : destination) (bs : list Byte.byte) : M ReadState unit :=
  fun st =>
    match dst with
    | to_buffer off =>
        match mem_write (buffer st) off bs with
        | Some b => Ok tt {| hfh := hfh st; buffer := b; downloads := downloads st |}
        | None => Fault
        end
    | to_read_buffer =>
        match mem_write (read_buffer (hfh st)) 0 bs with
        | Some b => Ok tt (set_hfh (set_read_buffer b) st)
        | None => Fault
        end
    end.

(** [memcpy((char * )buffer + off, hfh.read_buffer.get() + idx, len)]. *)
Definition memcpy_from_read_buffer (off idx len : Z) : M ReadState unit :=
  fun st =>
    match mem_read (read_buffer (hfh st)) idx len with
    | Some bs => store (to_buffer off) bs st
    | None => Fault
    end.

Definition ReadRange (file_offset : Z) (buffer_out : destination) (buffer_out_len : Z)
  : M ReadState unit :=
  do st <- get;
  let afh := hfh st in
  let range := {| Offset := s64 file_offset; Length := s64 buffer_out_len |} in
  let options :=
    {| Range := range;
       Concurrency := transfer_concurrency (fh_read_options afh);
       InitialChunkSize := transfer_chunk_size (fh_read_options afh);
       ChunkSize := transfer_chunk_size (fh_read_options afh) |} in
  run modify (log_download
                {| dl_client := blob_client afh; dl_destination := buffer_out;
                   dl_size := buffer_out_len; dl_options := options |});
  match DownloadTo (blob_client afh) buffer_out_len options with
  | Returns bs => store buffer_out bs
  | Throws (StorageException ErrorCode ReasonPhrase _) =>
      throw (IOException
               ("AzureBlobStorageFileSystem Read to " ++ fh_path afh
                ++ " failed with " ++ ErrorCode
                ++ "Reason Phrase: " ++ ReasonPhrase))
  | Throws e => throw e
  end.

(** The first half of the loop body: what the buffer holds is copied to
    the caller.  It returns the new values of the two local variables
    [to_read] and [buffer_offset]. *)
Definition Read_from_buffer (to_read buffer_offset : Z) : M ReadState (Z * Z) :=
  do st <- get;
  let buffer_read_len := MinValue_idx_t (buffer_available (hfh st)) to_read in
  if buffer_read_len >? 0 then
    run D_ASSERT
          (u64 (u64 (buffer_start (hfh st) + buffer_idx (hfh st)) + buffer_read_len)
           <=? buffer_end (hfh st));
    run memcpy_from_read_buffer buffer_offset (buffer_idx (hfh st)) buffer_read_len;
    run modify (set_hfh (fun h =>
          set_file_offset (u64 (file_offset h + buffer_read_len))
            (set_buffer_available (u64 (buffer_available h - buffer_read_len))
               (set_buffer_idx (u64 (buffer_idx h + buffer_read_len)) h))));
    ret (u64 (to_read - buffer_read_len), u64 (buffer_offset + buffer_read_len))
  else ret (to_read, buffer_offset).

(** The loop [while (to_read > 0)] of the positional read; the second
    half of its body fetches, past the buffer or into it. *)
Fixpoint Read_loop (fuel : nat) (location to_read buffer_offset : Z)
  : M ReadState unit :=
  if to_read >? 0 then
    match fuel with
    | O => out_of_fuel
    | S fuel' =>
        do locals <- Read_from_buffer to_read buffer_offset;
        let to_read := fst locals in
        let buffer_offset := snd locals in
        do st <- get;
        if (to_read >? 0) && (buffer_available (hfh st) =? 0) then
          let new_buffer_available :=
            MinValue_idx_t (buffer_size (fh_read_options (hfh st)))
              (u64 (fh_length (hfh st) - file_offset (hfh st))) in
          if to_read >? new_buffer_available then
            run ReadRange (u64 (location + buffer_offset)) (to_buffer buffer_offset)
                  to_read;
            modify (set_hfh (fun h =>
              set_file_offset (u64 (file_offset h + to_read))
                (set_buffer_idx 0 (set_buffer_available 0 h))))
          else
            run ReadRange (file_offset (hfh st)) to_read_buffer new_buffer_available;
            run modify (set_hfh (fun h =>
                  let h := set_buffer_available new_buffer_available h in
                  let h := set_buffer_idx 0 h in
                  let h := set_buffer_start (file_offset h) h in
                  set_buffer_end (u64 (buffer_start h + new_buffer_available)) h));
            Read_loop fuel' location to_read buffer_offset
        else Read_loop fuel' location to_read buffer_offset
    end
  else ret tt.

(** [Read(handle, buffer, nr_bytes, location)]. *)
Definition Read (nr_bytes location : Z) (fuel : nat) : M ReadState unit :=
  do st <- get;
  let to_read := u64 nr_bytes in
  let buffer_offset := 0 in
  if truthy (Z.land (fh_flags (hfh st)) FILE_FLAGS_DIRECT_IO) && (to_read >? 0) then
    run ReadRange location (to_buffer 0) to_read;
    modify (set_hfh (fun h =>
      set_file_offset (u64 (location + nr_bytes))
        (set_buffer_idx 0 (set_buffer_available 0 h))))
  else
    run (if (location >=? buffer_start (hfh st)) && (location <? buffer_end (hfh st))
         then
           modify (set_hfh (fun h =>
             let h := set_file_offset location h in
             let h := set_buffer_idx (u64 (location - buffer_start h)) h in
             set_buffer_available
               (u64 (u64 (buffer_end h - buffer_start h) - buffer_idx h)) h))
         else
           modify (set_hfh (fun h =>
             set_file_offset location
               (set_buffer_idx 0 (set_buffer_available 0 h)))));
    Read_loop fuel location to_read buffer_offset.

(** [Read(handle, buffer, nr_bytes)], at the handle's current offset. *)
Definition Read_at_offset (nr_bytes : Z) (fuel : nat) : M ReadState Z :=
  do st <- get;
  let max_read := u64 (fh_length (hfh st) - file_offset (hfh st)) in
  let nr_bytes := s64 (MinValue_idx_t max_read nr_bytes) in
  run Read nr_bytes (file_offset (hfh st)) fuel;
  ret nr_bytes.

(** *** Globbing *)

(** [container_client.ListBlobs(options)] inside its handler. *)
Definition ListBlobs_or_IOException
    (path : string) (container_client : BlobContainerClient) (options : ListBlobsOptions)
  : M Session ListBlobsPagedResponse :=
  fun w =>
    let w := log_request (ReqListBlobs container_client options) w in
    match ListBlobs container_client options with
    | Returns res => Ok res w
    | Throws (StorageException ErrorCode ReasonPhrase _) =>
        Throw (IOException
                 ("AzureStorageFileSystem Read to " ++ path ++ " failed with "
                  ++ ErrorCode ++ " Reason Phrase: " ++ ReasonPhrase)) w
    | Throws e => Throw e w
    end.

(** The loop over the blobs of one page. *)
Definition filter_page
    (path_result_prefix : string) (pattern_splits : list string)
    (blobs : list string) (result : list string) : list string :=
  fold_left
    (fun result key_Name =>
       let key_splits := StringUtil_Split key_Name "/" in
       let is_match := Match key_splits pattern_splits in
       if is_match then
         let result_full_url := path_result_prefix ++ "/" ++ key_Name in
         (result ++ [result_full_url])%list
       else result)
    blobs result.

(** The loop [while (true)] over the pages. *)
Fixpoint Glob_pages (fuel : nat)
    (path : string) (container_client : BlobContainerClient)
    (path_result_prefix : string) (pattern_splits : list string)
    (options : ListBlobsOptions) (result : list string)
  : M Session (list string) :=
  match fuel with
  | O => out_of_fuel
  | S fuel' =>
      do res <- ListBlobs_or_IOException path container_client options;
      let result := filter_page path_result_prefix pattern_splits (Blobs res) result in
      match NextPageToken res with
      | Some token =>
          let options := {| Prefix := Prefix options; ContinuationToken := Some token |} in
          Glob_pages fuel' path container_client path_result_prefix pattern_splits
            options result
      | None => ret result
      end
  end.

(** The characters that [Glob] looks for: [*], [[] and the backslash. *)
Definition wildcard_chars : string := "*[\".

Definition Glob (path : string) (opener : option FileOpener) (fuel : nat)
  : M Session (list string) :=
  match opener with
  | None =>
      throw (InternalException "Cannot do Azure storage Glob without FileOpener")
  | Some _ =>
      do azure_url <- call (ParseUrl path);
      do storage_context <- GetOrCreateStorageContext opener path azure_url;
      match find_first_of (url_path azure_url) wildcard_chars with
      | None => ret [path]
      | Some first_wildcard_pos =>
          let shared_path := substring 0 first_wildcard_pos (url_path azure_url) in
          do context <- deref storage_context;
          let container_client := GetBlobContainerClient context (container azure_url) in
          let pattern_splits := StringUtil_Split (url_path azure_url) "/" in
          let options := {| Prefix := Some shared_path; ContinuationToken := None |} in
          let path_result_prefix :=
            if is_fully_qualified azure_url
            then url_prefix azure_url ++ storage_account_name azure_url ++ "."
                 ++ endpoint azure_url ++ "/" ++ container azure_url
            else url_prefix azure_url ++ container azure_url in
          Glob_pages fuel path container_client path_result_prefix pattern_splits
            options []
      end
  end.

End Model.

(** ** Notions used by the properties *)

Section Notions.
Context `{host : HostEnv} `{sdk : AzureSdk} `{repo : !RepoDecls}.

(** *** Segment matching *)

(** What [Match] accepts: the pattern segments are laid along the key
    segments; a segment other than [**] takes exactly one key segment,
    which it matches as a glob; a [**] that is followed by more pattern
    takes zero or more key segments; a [**] that ends the pattern takes
    one or more. *)
Inductive segments_match : list string -> list string -> Prop :=
| match_end : segments_match [] []
| match_one k p key pattern :
    p <> "**" ->
    LikeFun_Glob k p = true ->
    segments_match key pattern ->
    segments_match (k :: key) (p :: pattern)
| match_globstar taken key pattern :
    pattern <> [] ->
    segments_match key pattern ->
    segments_match (taken ++ key) ("**" :: pattern)
| match_globstar_last taken :
    taken <> [] ->
    segments_match taken ["**"].

(** The matching that the specification words: as above, but [**] takes
    zero or more key segments wherever it stands, also at the end. *)
Inductive spec_segments_match : list string -> list string -> Prop :=
| spec_match_end : spec_segments_match [] []
| spec_match_one k p key pattern :
    p <> "**" ->
    LikeFun_Glob k p = true ->
    spec_segments_match key pattern ->
    spec_segments_match (k :: key) (p :: pattern)
| spec_match_globstar taken key pattern :
    spec_segments_match key pattern ->
    spec_segments_match (taken ++ key) ("**" :: pattern).

(** *** The context cache *)

(** The setting [azure_context_caching] as [GetOrCreateStorageContext]
    reads it: enabled unless set to false. *)
Definition caching_enabled (opener : option FileOpener) : bool :=
  match TryGetCurrentSetting opener "azure_context_caching" with
  | Some value => GetValue_bool value
  | None => true
  end.

(** A sequence of accesses to the cache, for any accounts and through any
    openers, each of which returns or throws. *)
Inductive accesses : Session -> Session -> Prop :=
| accesses_done w : accesses w w
| accesses_returns opener path parsed_url w p w1 w2 :
    GetOrCreateStorageContext opener path parsed_url w = Ok p w1 ->
    accesses w1 w2 ->
    accesses w w2
| accesses_throws opener path parsed_url w e w1 w2 :
    GetOrCreateStorageContext opener path parsed_url w = Throw e w1 ->
    accesses w1 w2 ->
    accesses w w2.

(** The registry holds, for the account [name], the object at [p], and
    that object is valid. *)
Definition cached (name : string) (p : nat) (w : Session) : Prop :=
  registered_state w !! name = Some p /\
  exists c, objects w !! p = Some c /\ is_valid c = true.

(** *** Handles and blobs *)

(** The bytes [off, off + len) of a blob. *)
Definition blob_range (blob : list Byte.byte) (off len : Z) : list Byte.byte :=
  take (Z.to_nat len) (drop (Z.to_nat off) blob).

(** The service holds [blob] behind the client [c]: its size is the
    blob's, and a download of a range within the blob into a destination
    that is large enough returns the bytes of the range. *)
Definition serves (c : BlobClient) (blob : list Byte.byte) : Prop :=
  Z.of_nat (List.length blob) < 2 ^ 63 /\
  GetProperties c = Returns (Z.of_nat (List.length blob)) /\
  forall (n : Z) (o : DownloadBlobToOptions),
    0 <= Offset (Range o) ->
    0 <= Length (Range o) <= n ->
    Offset (Range o) + Length (Range o) <= Z.of_nat (List.length blob) ->
    DownloadTo c n o
    = Returns (blob_range blob (Offset (Range o)) (Length (Range o))).

(** A download never stores more bytes than its destination holds. *)
Definition downloads_fit : Prop :=
  forall (c : BlobClient) (n : Z) (o : DownloadBlobToOptions) (bs : list Byte.byte),
    DownloadTo c n o = Returns bs -> Z.of_nat (List.length bs) <= n.

(** The bookkeeping of the read-ahead buffer is consistent: the window
    [buffer_start, buffer_end) fits the allocated buffer and the cursor
    with what is left after it fits the window. *)
Record handle_wf (h : AzureBlobStorageFileHandle) : Prop := {
  wf_buffer_size : 0 <= buffer_size (fh_read_options h) < 2 ^ 64;
  wf_length : 0 <= fh_length h < 2 ^ 63;
  wf_window : 0 <= buffer_start h <= buffer_end h;
  wf_window_end : buffer_end h < 2 ^ 64;
  wf_window_fits : buffer_end h - buffer_start h <= Z.of_nat (List.length (read_buffer h));
  wf_idx : 0 <= buffer_idx h;
  wf_available : 0 <= buffer_available h;
  wf_cursor : buffer_idx h + buffer_available h <= buffer_end h - buffer_start h;
  wf_offset : 0 <= file_offset h < 2 ^ 64
}.

(** The handle reads [blob], its buffer is allocated, and the window
    holds the bytes of the blob that it stands for. *)
Record handle_holds (blob : list Byte.byte) (h : AzureBlobStorageFileHandle) : Prop := {
  holds_wf : handle_wf h;
  holds_serves : serves (blob_client h) blob;
  holds_length : fh_length h = Z.of_nat (List.length blob);
  holds_allocated :
    Z.of_nat (List.length (read_buffer h)) = buffer_size (fh_read_options h);
  holds_within : buffer_end h <= Z.of_nat (List.length blob);
  holds_window :
    take (Z.to_nat (buffer_end h - buffer_start h)) (read_buffer h)
    = blob_range blob (buffer_start h) (buffer_end h - buffer_start h)
}.

(** A region with [bs] stored at [off]. *)
Definition splice (r : region) (off : Z) (bs : list Byte.byte) : region :=
  (take (Z.to_nat off) r ++ bs ++ drop (Z.to_nat off + List.length bs) r)%list.

(** What a handle never changes after it is constructed. *)
Record same_file (h h' : AzureBlobStorageFileHandle) : Prop := {
  same_path : fh_path h' = fh_path h;
  same_flags : fh_flags h' = fh_flags h;
  same_length : fh_length h' = fh_length h;
  same_last_modified : last_modified h' = last_modified h;
  same_blob_client : blob_client h' = blob_client h;
  same_read_options : fh_read_options h' = fh_read_options h
}.

(** A computation that keeps these, whether it returns or throws. *)
Definition keeps_file {A} (m : M ReadState A) : Prop :=
  forall st,
    match m st with
    | Ok _ st' | Throw _ st' => same_file (hfh st) (hfh st')
    | _ => True
    end.

(** The handle as the positional read places it on [location] before its
    loop: inside the window the cursor moves, outside it the buffer is
    reset. *)
Definition positioned (h : AzureBlobStorageFileHandle) (location : Z)
  : AzureBlobStorageFileHandle :=
  if (location >=? buffer_start h) && (location <? buffer_end h) then
    let h := set_file_offset location h in
    let h := set_buffer_idx (u64 (location - buffer_start h)) h in
    set_buffer_available (u64 (u64 (buffer_end h - buffer_start h) - buffer_idx h)) h
  else
    set_file_offset location (set_buffer_idx 0 (set_buffer_available 0 h)).

(** The handle after [n] bytes of the buffer have been consumed. *)
Definition advance (n : Z) (h : AzureBlobStorageFileHandle)
  : AzureBlobStorageFileHandle :=
  set_file_offset (file_offset h + n)
    (set_buffer_available (buffer_available h - n)
       (set_buffer_idx (buffer_idx h + n) h)).

(** The handle after its buffer has been refilled with [bs], fetched at
    the current offset. *)
Definition refilled (bs : list Byte.byte) (h : AzureBlobStorageFileHandle)
  : AzureBlobStorageFileHandle :=
  let n := Z.of_nat (List.length bs) in
  set_buffer_end (file_offset h + n)
    (set_buffer_start (file_offset h)
       (set_buffer_idx 0
          (set_buffer_available n
             (set_read_buffer (splice (read_buffer h) 0 bs) h)))).

(** The download that [ReadRange] requests for a range and a destination. *)
Definition download_of (h : AzureBlobStorageFileHandle)
    (file_offset : Z) (dst : destination) (len : Z) : download :=
  {| dl_client := blob_client h;
     dl_destination := dst;
     dl_size := len;
     dl_options :=
       {| Range := {| Offset := s64 file_offset; Length := s64 len |};
          Concurrency := transfer_concurrency (fh_read_options h);
          InitialChunkSize := transfer_chunk_size (fh_read_options h);
          ChunkSize := transfer_chunk_size (fh_read_options h) |} |}.

(** The bytes that the window still holds from [location] on. *)
Definition window_available (h : AzureBlobStorageFileHandle) (location : Z) : Z :=
  if (location >=? buffer_start h) && (location <? buffer_end h)
  then buffer_end h - location
  else 0.

(** The handle after a sequence of seeks and of reads that lie within
    the file and end normally. *)
Inductive reachable (h0 : AzureBlobStorageFileHandle)
  : AzureBlobStorageFileHandle -> Prop :=
| reachable_opened : reachable h0 h0
| reachable_Seek h location :
    reachable h0 h ->
    0 <= location < 2 ^ 64 ->
    reachable h0 (Seek h location)
| reachable_Read h buf dls nr_bytes location fuel st' :
    reachable h0 h ->
    0 <= nr_bytes -> 0 <= location ->
    location + nr_bytes <= fh_length h ->
    nr_bytes <= Z.of_nat (List.length buf) ->
    (2 <= fuel)%nat ->
    Read nr_bytes location fuel {| hfh := h; buffer := buf; downloads := dls |}
    = Ok tt st' ->
    reachable h0 (hfh st')
| reachable_Read_at_offset h buf dls nr_bytes fuel n st' :
    reachable h0 h ->
    0 <= nr_bytes < 2 ^ 63 ->
    file_offset h <= fh_length h ->
    Z.min (fh_length h - file_offset h) nr_bytes <= Z.of_nat (List.length buf) ->
    (2 <= fuel)%nat ->
    Read_at_offset nr_bytes fuel {| hfh := h; buffer := buf; downloads := dls |}
    = Ok n st' ->
    reachable h0 (hfh st').

(** The handle after any sequence of seeks and reads, whether a read
    returns or throws. *)
Inductive used (h0 : AzureBlobStorageFileHandle)
  : AzureBlobStorageFileHandle -> Prop :=
| used_opened : used h0 h0
| used_Seek h location :
    used h0 h -> used h0 (Seek h location)
| used_Read h buf dls nr_bytes location fuel st' :
    used h0 h ->
    (Read nr_bytes location fuel {| hfh := h; buffer := buf; downloads := dls |}
     = Ok tt st' \/
     exists e,
       Read nr_bytes location fuel {| hfh := h; buffer := buf; downloads := dls |}
       = Throw e st') ->
    used h0 (hfh st')
| used_Read_at_offset h buf dls nr_bytes fuel st' :
    used h0 h ->
    ((exists n,
        Read_at_offset nr_bytes fuel {| hfh := h; buffer := buf; downloads := dls |}
        = Ok n st') \/
     exists e,
       Read_at_offset nr_bytes fuel {| hfh := h; buffer := buf; downloads := dls |}
       = Throw e st') ->
    used h0 (hfh st').

(** *** Listings *)

(** The pages that the service returns for a listing that starts with
    [options], each request after the first carrying the token of the
    page before; the last page carries no token. *)
Inductive pages_from (c : BlobContainerClient)
  : ListBlobsOptions -> list ListBlobsPagedResponse -> Prop :=
| pages_last options res :
    ListBlobs c options = Returns res ->
    NextPageToken res = None ->
    pages_from c options [res]
| pages_more options res token pages :
    ListBlobs c options = Returns res ->
    NextPageToken res = Some token ->
    pages_from c {| Prefix := Prefix options; ContinuationToken := Some token |} pages ->
    pages_from c options (res :: pages).

(** The options of the requests that fetch these pages, in order. *)
Fixpoint listing_options (options : ListBlobsOptions)
    (pages : list ListBlobsPagedResponse) : list ListBlobsOptions :=
  match pages with
  | [] => []
  | res :: pages' =>
      options ::
      match NextPageToken res with
      | Some token =>
          listing_options
            {| Prefix := Prefix options; ContinuationToken := Some token |} pages'
      | None => []
      end
  end.

(** The URLs of the blobs, among [blobs], whose name matches the pattern
    segment by segment, in the order of [blobs]. *)
Definition matching_urls (path_result_prefix : string) (pattern_splits : list string)
    (blobs : list string) : list string :=
  map (fun key_Name => path_result_prefix ++ "/" ++ key_Name)
    (List.filter (fun key_Name => Match (StringUtil_Split key_Name "/") pattern_splits)
       blobs).

(** The prefix that [Glob] puts before the container-relative name. *)
Definition result_prefix (azure_url : AzureParsedUrl) : string :=
  if is_fully_qualified azure_url
  then url_prefix azure_url ++ storage_account_name azure_url ++ "."
       ++ endpoint azure_url ++ "/" ++ container azure_url
  else url_prefix azure_url ++ container azure_url.

(** *** Exceptions *)

Definition is_StorageException (e : exception) : bool :=
  match e with StorageException _ _ _ => true | _ => false end.

(** A computation out of which no [StorageException] comes. *)
Definition no_StorageException {S A} (m : M S A) : Prop :=
  forall s e s', m s = Throw e s' -> is_StorageException e = false.

End Notions.

(** ** A small concrete environment

    One storage account with the container [data], a host with the usual
    flag values and a debug build, and a URL parser for paths of the form
    [az://data/<key>].  It is the environment in which the properties
    below are exercised on concrete inputs. *)
Module Demo.

(** [StringUtil::Split] for a one-character delimiter: empty pieces are
    dropped, and an input without pieces is returned as it is. *)
Fixpoint split_on (d : ascii) (s cur : string) : list string :=
  match s with
  | EmptyString => if String.eqb cur "" then [] else [cur]
  | String c s' =>
      if Ascii.eqb c d
      then (if String.eqb cur "" then [] else [cur]) ++ split_on d s' ""
      else split_on d s' (cur ++ String c EmptyString)
  end%list.

Definition Split (input split : string) : list string :=
  match split with
  | String d EmptyString =>
      match split_on d input "" with
      | [] => [input]
      | splits => splits
      end
  | _ => [input]
  end.

(** A stand-in for [LikeFun::Glob] that knows [*] and [?]. *)
Fixpoint glob (s pattern : string) {struct pattern} : bool :=
  match pattern with
  | EmptyString => String.eqb s ""
  | String p pattern' =>
      if Ascii.eqb p "*" then
        (fix star (s : string) : bool :=
           if glob s pattern' then true
           else match s with
                | EmptyString => false
                | String _ s' => star s'
                end) s
      else
        match s with
        | EmptyString => false
        | String c s' =>
            (Ascii.eqb p "?" || Ascii.eqb p c) && glob s' pattern'
        end
  end.

Definition opener : Type := string -> option Z.

Definition host : HostEnv := {|
  FILE_FLAGS_READ := 1;
  FILE_FLAGS_WRITE := 2;
  FILE_FLAGS_DIRECT_IO := 4;
  DEBUG := true;
  Value := Z;
  GetValue_int32_t := fun v => v;
  GetValue_int64_t := fun v => v;
  GetValue_idx_t := fun v => v;
  GetValue_bool := fun v => negb (v =? 0);
  FileOpener := opener;
  TryGetCurrentSetting := fun o key => match o with Some f => f key | None => None end;
  TryGetClientContext := fun o => match o with Some _ => true | None => false end;
  LikeFun_Glob := glob;
  StringUtil_Split := Split
|}.

(** The blobs of the container [data]. *)
Definition hello : list Byte.byte := list_byte_of_string "hello, world".

Definition blobs : list (string * list Byte.byte) :=
  [("a", hello); ("logs/a.csv", hello); ("logs/2024/b.csv", []);
   ("what?.csv", hello)].

Fixpoint lookup_blob (key : string) (l : list (string * list Byte.byte))
  : option (list Byte.byte) :=
  match l with
  | [] => None
  | (k, v) :: l' => if String.eqb k key then Some v else lookup_blob key l'
  end.

Definition blob_of (c : string * string) : option (list Byte.byte) :=
  if String.eqb (fst c) "data" then lookup_blob (snd c) blobs else None.

Definition not_found {A} : thrown A :=
  Throws (StorageException "BlobNotFound" "The specified blob does not exist."
            "404 The specified blob does not exist.").

Definition sdk : AzureSdk := {|
  BlobServiceClient := unit;
  BlobContainerClient := string;
  BlobClient := string * string;
  Service_GetBlobContainerClient := fun _ name => name;
  GetBlockBlobClient := fun cont key => (cont, key);
  GetProperties := fun c =>
    match blob_of c with
    | Some bs => Returns (Z.of_nat (List.length bs))
    | None => not_found
    end;
  DownloadTo := fun c n o =>
    match blob_of c with
    | Some bs =>
        if (0 <=? Offset (Range o)) && (0 <=? Length (Range o))
           && (Offset (Range o) + Length (Range o) <=? Z.of_nat (List.length bs))
           && (Length (Range o) <=? n)
        then Returns (take (Z.to_nat (Length (Range o)))
                        (drop (Z.to_nat (Offset (Range o))) bs))
        else Throws (StorageException "InvalidRange"
                       "The range specified is invalid." "416")
    | None => not_found
    end;
  ListBlobs := fun cont o =>
    if String.eqb cont "data" then
      Returns {| Blobs :=
                   List.filter (fun k => match Prefix o with
                                         | Some p => String.prefix p k
                                         | None => true
                                         end) (map fst blobs);
                 NextPageToken := None |}
    else Throws (StorageException "ContainerNotFound"
                   "The specified container does not exist." "404")
|}.

Definition parse_url (path : string) : thrown AzureParsedUrl :=
  if String.prefix "az://data/" path then
    Returns {| is_fully_qualified := false;
               url_prefix := "az://";
               storage_account_name := "";
               endpoint := "";
               container := "data";
               url_path := substring 10 (String.length path - 10) path |}
  else Throws (IOException "The URL needs to contain a container and a path").

Definition repo : @RepoDecls host sdk := {|
  AzureReadOptions_default :=
    {| transfer_concurrency := 5; transfer_chunk_size := 1024; buffer_size := 4 |};
  ParseUrl := parse_url;
  ConnectToBlobStorageAccount := fun _ _ _ => @Returns (@BlobServiceClient sdk) tt;
  OpenFile_default_lock := NO_LOCK;
  OpenFile_default_compression := UNCOMPRESSED;
  OpenFile_default_opener := None
|}.

(** An opener without settings of its own, and the session at its start. *)
Definition no_settings : option opener := Some (fun _ => None).

Definition start : @Session sdk :=
  {| objects := []; registered_state := ∅; requests := [] |}.

(** The blob [a] of the container: its URL, and its handle as [OpenFile]
    builds it for reading. *)
Definition url_a : AzureParsedUrl :=
  {| is_fully_qualified := false;
     url_prefix := "az://";
     storage_account_name := "";
     endpoint := "";
     container := "data";
     url_path := "a" |}.

Definition handle_a : @AzureBlobStorageFileHandle sdk :=
  {| fh_path := "az://data/a"; fh_flags := 1; fh_length := 12;
     last_modified := 0;
     read_buffer := [Byte.x00; Byte.x00; Byte.x00; Byte.x00];
     buffer_available := 0; buffer_idx := 0; file_offset := 0;
     buffer_start := 0; buffer_end := 0;
     blob_client := (("data", "a") : @BlobClient sdk);
     fh_read_options := @AzureReadOptions_default host sdk repo |}.

(** A read of three bytes at offset 2 into a buffer of eight, and the
    state it ends in. *)
Definition before_read : @ReadState sdk :=
  {| hfh := handle_a; buffer := repeat Byte.x00 8; downloads := [] |}.

Definition after_read : @ReadState sdk :=
  Eval vm_compute in
    match @Read host sdk 3 2 2 before_read with
    | Ok _ st => st
    | _ => before_read
    end.

(** The same repository without a reachable account: connecting throws. *)
Definition repo_offline : @RepoDecls host sdk := {|
  AzureReadOptions_default :=
    {| transfer_concurrency := 5; transfer_chunk_size := 1024; buffer_size := 4 |};
  ParseUrl := parse_url;
  ConnectToBlobStorageAccount := fun _ _ _ =>
    @Throws (@BlobServiceClient sdk) (std_exception "No such host is known");
  OpenFile_default_lock := NO_LOCK;
  OpenFile_default_compression := UNCOMPRESSED;
  OpenFile_default_opener := None
|}.

(** An opener that switches context caching off. *)
Definition no_caching : option opener :=
  Some (fun key => if String.eqb key "azure_context_caching" then Some 0 else None).


(** The handle after the read above, with a fresh buffer of the caller. *)
Definition later_read : @ReadState sdk :=
  {| hfh := hfh after_read; buffer := repeat Byte.x00 8; downloads := [] |}.


End Demo.

(** * Properties *)

(** ** Helper lemmas on integers and strings *)

Lemma u64_small (z : Z) : 0 <= z < 2 ^ 64 -> u64 z = z.
Proof. intros H. unfold u64. apply Z.mod_small. exact H. Qed.

Lemma s64_small (z : Z) : - 2 ^ 63 <= z < 2 ^ 63 -> s64 z = z.
Proof. intros H. unfold s64. rewrite Z.mod_small; lia. Qed.

Lemma npos_squared : u64 (npos * npos) = 1.
Proof. reflexivity. Qed.

Lemma substring_length_le (s : string) (n m : nat) :
  (String.length (substring n m s) <= String.length s)%nat.
Proof.
  revert n m. induction s as [|c s IH]; intros n m.
  - destruct n, m; simpl; lia.
  - destruct n as [|n].
    + destruct m as [|m]; simpl; [lia|]. specialize (IH 0%nat m). lia.
    + simpl. specialize (IH n m). lia.
Qed.

Lemma occurs_at_0_prefix (s needle : string) :
  occurs_at s needle 0 = String.prefix needle s.
Proof.
  unfold occurs_at.
  destruct (String.prefix needle s) eqn:E.
  - apply prefix_correct in E. rewrite E. apply String.eqb_refl.
  - apply String.eqb_neq. intros H. apply prefix_correct in H. congruence.
Qed.

Lemma rfind_0 (s needle : string) :
  rfind s needle 0 = if String.prefix needle s then 0 else npos.
Proof.
  unfold rfind.
  destruct (String.length s <? String.length needle)%nat eqn:E.
  - apply Nat.ltb_lt in E.
    destruct (String.prefix needle s) eqn:P; [|reflexivity].
    apply prefix_correct in P.
    pose proof (substring_length_le s 0 (String.length needle)) as L.
    rewrite P in L. lia.
  - rewrite Nat.min_0_l. simpl. rewrite occurs_at_0_prefix.
    destruct (String.prefix needle s); reflexivity.
Qed.

(** ** The accepted path schemes *)

(** C8. [CanHandleFile] accepts a path exactly when it begins with
    [azure://] or with [az://]: the product of the two [rfind] results,
    taken modulo 2^64, is zero exactly when one of them is zero, since
    [npos * npos] is 1 modulo 2^64. *)
Theorem CanHandleFile_iff_scheme :
  u64 (npos * npos) = 1 /\
  forall fpath : string,
    CanHandleFile fpath = true <->
    (String.prefix "azure://" fpath = true \/ String.prefix "az://" fpath = true).
Proof.
  split; [reflexivity|].
  intros fpath. unfold CanHandleFile. rewrite !rfind_0.
  destruct (String.prefix "azure://" fpath), (String.prefix "az://" fpath);
    vm_compute; intuition congruence.
Qed.

Section Properties.
Context `{host : HostEnv} `{sdk : AzureSdk} `{repo : !RepoDecls}.

(** ** Opening for writing *)

(** C4. Whatever the path, [OpenFile] with a flag combination that
    includes the write flag throws the not-implemented exception and
    leaves the session as it was: no context is resolved, no request is
    sent, no handle is created.  The compression is the one that the
    function asserts (the assertion is checked in debug builds only). *)
Theorem OpenFile_write_not_implemented
    (path : string) (flags : Z) (lock : FileLockType)
    (compression : FileCompressionType) (opener : option FileOpener)
    (w : Session) :
  DEBUG = false \/ compression = UNCOMPRESSED ->
  Z.land flags FILE_FLAGS_WRITE <> 0 ->
  OpenFile path flags lock compression opener w
  = Throw (NotImplementedException
             "Writing to Azure containers is currently not supported") w.
Proof.
  intros Hassert Hwrite.
  unfold OpenFile, bind, D_ASSERT.
  assert (DEBUG && negb (FileCompressionType_eqb compression UNCOMPRESSED) = false)
    as ->.
  { destruct Hassert as [-> | ->]; [reflexivity|]. apply andb_false_r. }
  unfold ret, truthy.
  destruct (Z.eqb_spec (Z.land flags FILE_FLAGS_WRITE) 0) as [E|_]; [contradiction|].
  reflexivity.
Qed.

(** ** Existence checks *)

(** C5. [FileExists] never ends in an exception, and whenever opening the
    file throws, whatever the exception, it answers [false]. *)
Theorem FileExists_swallows_failures (filename : string) (w : Session) :
  (forall e w', FileExists filename w <> Throw e w') /\
  (forall e w',
      OpenFile filename FILE_FLAGS_READ OpenFile_default_lock
        OpenFile_default_compression OpenFile_default_opener w = Throw e w' ->
      FileExists filename w = Ok false w').
Proof.
  unfold FileExists, try_catch_all, bind.
  destruct (OpenFile filename FILE_FLAGS_READ OpenFile_default_lock
              OpenFile_default_compression OpenFile_default_opener w)
    as [sfh w1|e1 w1| |]; split; intros e w'; try discriminate.
  - destruct (fh_length sfh =? 0); discriminate.
  - intros [= _ ->]. reflexivity.
Qed.

(** ** Globbing a path without wildcard *)

Lemma find_first_of_None (s chars : string) :
  find_first_of s chars = None <->
  (forall c, mem_char c s = true -> mem_char c chars = false).
Proof.
  induction s as [|d s IH]; simpl.
  - split; [intros _ c; discriminate | reflexivity].
  - destruct (mem_char d chars) eqn:E.
    + split; [discriminate|]. intros H.
      specialize (H d). rewrite Ascii.eqb_refl in H.
      rewrite E in H. discriminate H. reflexivity.
    + destruct (find_first_of s chars) eqn:F; simpl.
      * split; [discriminate|]. intros H.
        assert (Some n = None) as [=]. apply IH. intros c Hc. apply H.
        rewrite Hc. destruct (Ascii.eqb c d); reflexivity.
      * split; [|reflexivity]. intros _ c.
        destruct (Ascii.eqb_spec c d) as [->|_]; [intros _; exact E|].
        apply IH. reflexivity.
Qed.

(** Resolving the storage context sends no request. *)
Lemma CreateStorageContext_requests opener path url (w : Session) :
  match CreateStorageContext opener path url w with
  | Ok _ w' | Throw _ w' => requests w' = requests w
  | _ => True
  end.
Proof.
  unfold CreateStorageContext, bind, call.
  destruct (ConnectToBlobStorageAccount opener path url); reflexivity.
Qed.

Lemma GetOrCreateStorageContext_requests opener path url (w : Session) :
  match GetOrCreateStorageContext opener path url w with
  | Ok _ w' | Throw _ w' => requests w' = requests w
  | _ => True
  end.
Proof.
  unfold GetOrCreateStorageContext.
  destruct (match TryGetCurrentSetting opener "azure_context_caching" with
            | Some value => GetValue_bool value
            | None => true
            end); [|apply CreateStorageContext_requests].
  destruct (TryGetClientContext opener); simpl; [|exact I].
  unfold bind at 1, get.
  destruct (registered_state w !! storage_account_name url) as [p|].
  - unfold bind at 1, deref.
    destruct (objects w !! p) as [c|]; [|exact I].
    destruct (IsValid c); simpl; [reflexivity|].
    unfold bind at 1.
    pose proof (CreateStorageContext_requests opener path url w) as H.
    destruct (CreateStorageContext opener path url w); try exact H; exact I.
  - unfold bind at 1.
    pose proof (CreateStorageContext_requests opener path url w) as H.
    destruct (CreateStorageContext opener path url w); try exact H; exact I.
Qed.

Lemma Glob_no_wildcard path opener fuel (w : Session) url p w1 :
  opener <> None ->
  ParseUrl path = Returns url ->
  find_first_of (url_path url) wildcard_chars = None ->
  GetOrCreateStorageContext opener path url w = Ok p w1 ->
  Glob path opener fuel w = Ok [path] w1 /\ requests w1 = requests w.
Proof.
  intros Hopener Hurl Hnone Hctx.
  destruct opener as [o|]; [|contradiction].
  split.
  - unfold Glob, bind. rewrite Hurl. simpl. rewrite Hctx, Hnone. reflexivity.
  - pose proof (GetOrCreateStorageContext_requests (Some o) path url w) as H.
    rewrite Hctx in H. exact H.
Qed.

(** C3. When the object key of the path holds none of the wildcard
    characters that [Glob] looks for, [Glob] (called with a file opener,
    on a path that parses and whose storage context resolves) returns
    the list that holds the path itself and nothing else, and has sent no
    request to the service: the request log is the one before the
    call. *)
Theorem Glob_literal_path
    (path : string) (opener : option FileOpener) (fuel : nat) (w : Session)
    (azure_url : AzureParsedUrl) (storage_context : nat) (w1 : Session) :
  opener <> None ->
  ParseUrl path = Returns azure_url ->
  (forall c, mem_char c (url_path azure_url) = true ->
             mem_char c wildcard_chars = false) ->
  GetOrCreateStorageContext opener path azure_url w = Ok storage_context w1 ->
  Glob path opener fuel w = Ok [path] w1 /\ requests w1 = requests w.
Proof.
  intros Hopener Hurl Hchars Hctx.
  apply Glob_no_wildcard with (url := azure_url) (p := storage_context); auto.
  apply find_first_of_None. exact Hchars.
Qed.

(** C10. A question mark is not among the characters that [Glob] looks
    for (they are [*], [[] and the backslash, nothing else): a path whose
    object key holds a question mark and none of those three is returned
    literally, as the only element, no request being sent. *)
Theorem Glob_question_mark_literal
    (path : string) (opener : option FileOpener) (fuel : nat) (w : Session)
    (azure_url : AzureParsedUrl) (storage_context : nat) (w1 : Session) :
  opener <> None ->
  ParseUrl path = Returns azure_url ->
  mem_char "?" (url_path azure_url) = true ->
  mem_char "*" (url_path azure_url) = false ->
  mem_char "[" (url_path azure_url) = false ->
  mem_char "\" (url_path azure_url) = false ->
  GetOrCreateStorageContext opener path azure_url w = Ok storage_context w1 ->
  wildcard_chars = String "*" (String "[" (String "\" EmptyString)) /\
  Glob path opener fuel w = Ok [path] w1 /\ requests w1 = requests w.
Proof.
  intros Hopener Hurl _ Hstar Hbracket Hbackslash Hctx.
  split; [reflexivity|].
  apply Glob_no_wildcard with (url := azure_url) (p := storage_context); auto.
  apply find_first_of_None. intros c Hc. unfold wildcard_chars. simpl.
  destruct (Ascii.eqb_spec c "*") as [->|_]; [congruence|].
  destruct (Ascii.eqb_spec c "[") as [->|_]; [congruence|].
  destruct (Ascii.eqb_spec c "\") as [->|_]; [congruence|].
  reflexivity.
Qed.

(** ** The segment matcher *)

Lemma scan_key_true (try : list string -> bool) (key : list string) :
  scan_key try key = true <->
  exists taken rest, key = (taken ++ rest)%list /\ rest <> [] /\ try rest = true.
Proof.
  induction key as [|k key IH]; simpl.
  - split; [discriminate|].
    intros (taken & rest & E & Hne & _).
    symmetry in E. apply app_eq_nil in E as [_ ->]. contradiction.
  - destruct (try (k :: key)) eqn:T.
    + split; [|reflexivity]. intros _.
      exists [], (k :: key). repeat split; [discriminate | exact T].
    + rewrite IH. split.
      * intros (taken & rest & -> & Hne & Hr).
        exists (k :: taken), rest. repeat split; assumption.
      * intros (taken & rest & E & Hne & Hr).
        destruct taken as [|t taken]; simpl in E.
        -- subst rest. congruence.
        -- injection E as _ ->. exists taken, rest. repeat split; assumption.
Qed.

Lemma segments_match_nil_key (pattern : list string) :
  segments_match [] pattern -> pattern = [].
Proof.
  intros H. remember [] as key eqn:E.
  induction H as [|k p key pattern _ _ _ _|taken key pattern Hne _ IH|taken Hne].
  - reflexivity.
  - discriminate.
  - apply app_eq_nil in E as [_ ->]. exfalso. apply Hne, IH. reflexivity.
  - contradiction.
Qed.

Lemma Match_cons (k : string) (key : list string) (p : string) (pattern : list string) :
  Match (k :: key) (p :: pattern)
  = if String.eqb p "**" then
      match pattern with
      | [] => true
      | _ :: _ => scan_key (fun key => Match key pattern) (k :: key)
      end
    else if negb (LikeFun_Glob k p) then false
    else Match key pattern.
Proof. destruct pattern; reflexivity. Qed.

Lemma Match_sound (key pattern : list string) :
  Match key pattern = true -> segments_match key pattern.
Proof.
  revert key. induction pattern as [|p pattern IH]; intros key H.
  - destruct key; [constructor | discriminate].
  - destruct key as [|k key]; [discriminate|].
    rewrite Match_cons in H. destruct (String.eqb_spec p "**") as [->|Hp].
    + destruct pattern as [|q pattern].
      * apply match_globstar_last. discriminate.
      * apply scan_key_true in H as (taken & rest & -> & _ & Hm).
        apply match_globstar; [discriminate | apply IH, Hm].
    + destruct (LikeFun_Glob k p) eqn:G; simpl in H; [|discriminate].
      apply match_one; auto.
Qed.

Lemma Match_complete (key pattern : list string) :
  segments_match key pattern -> Match key pattern = true.
Proof.
  induction 1 as [|k p key pattern Hp G _ IH|taken key pattern Hne Hm IH|taken Hne].
  - reflexivity.
  - rewrite Match_cons. destruct (String.eqb_spec p "**") as [E|_]; [contradiction|].
    rewrite G. exact IH.
  - assert (key <> []) as Hkey.
    { intros ->. apply Hne, segments_match_nil_key, Hm. }
    destruct (taken ++ key)%list as [|k0 l] eqn:E.
    { apply app_eq_nil in E as [_ ->]. contradiction. }
    destruct pattern as [|q pattern]; [contradiction|].
    rewrite Match_cons, <- E. apply scan_key_true.
    exists taken, key. repeat split; assumption.
  - destruct taken; [contradiction | reflexivity].
Qed.

(** What [Match] accepts, the specification's matching accepts too. *)
Lemma segments_match_spec (key pattern : list string) :
  segments_match key pattern -> spec_segments_match key pattern.
Proof.
  induction 1 as [|k p key pattern Hp G _ IH|taken key pattern _ _ IH|taken _].
  - constructor.
  - apply spec_match_one; assumption.
  - apply spec_match_globstar, IH.
  - rewrite <- (app_nil_r taken). apply spec_match_globstar. constructor.
Qed.

(** C2, as the code has it.  [Match] accepts a key for a pattern exactly
    when the pattern segments can be laid along the key segments so that
    every segment other than [**] matches, as a glob, exactly one key
    segment, a [**] followed by more pattern takes zero or more key
    segments, and a [**] that ends the pattern takes one or more. *)
Theorem Match_accepts_iff (key pattern : list string) :
  Match key pattern = true <-> segments_match key pattern.
Proof.
  split; [apply Match_sound | apply Match_complete].
Qed.

(** ** The context cache *)

Lemma CreateStorageContext_Ok opener path url (w : Session) p w1 :
  CreateStorageContext opener path url w = Ok p w1 ->
  exists client,
    ConnectToBlobStorageAccount opener path url = Returns client /\
    p = List.length (objects w) /\
    w1 = set_objects
           (fun os => (os ++ [AzureBlobContextState_new client
                                (ParseAzureReadOptions opener)])%list) w.
Proof.
  unfold CreateStorageContext, bind, call.
  destruct (ConnectToBlobStorageAccount opener path url) as [client|e]; simpl.
  - unfold make_shared. intros [= <- <-]. exists client. auto.
  - discriminate.
Qed.

Lemma CreateStorageContext_Throw opener path url (w : Session) e w1 :
  CreateStorageContext opener path url w = Throw e w1 -> w1 = w.
Proof.
  unfold CreateStorageContext, bind, call.
  destruct (ConnectToBlobStorageAccount opener path url) as [client|e']; simpl.
  - discriminate.
  - unfold throw. intros [= _ <-]. reflexivity.
Qed.

Lemma CreateStorageContext_Returns opener path url (w : Session) client :
  ConnectToBlobStorageAccount opener path url = Returns client ->
  CreateStorageContext opener path url w
  = Ok (List.length (objects w))
       (set_objects
          (fun os => (os ++ [AzureBlobContextState_new client
                               (ParseAzureReadOptions opener)])%list) w).
Proof.
  intros H. unfold CreateStorageContext, bind, call. rewrite H. reflexivity.
Qed.

(** The cache under caching, case by case on the registry. *)
Lemma GetOrCreateStorageContext_cached_eq opener path url (w : Session) :
  caching_enabled opener = true ->
  TryGetClientContext opener = true ->
  GetOrCreateStorageContext opener path url w
  = match registered_state w !! storage_account_name url with
    | None =>
        match CreateStorageContext opener path url w with
        | Ok result w' =>
            Ok result (set_registered_state
                         (map_insert_new (storage_account_name url) result) w')
        | Throw e w' => Throw e w'
        | Fault => Fault
        | OutOfFuel => OutOfFuel
        end
    | Some p =>
        match objects w !! p with
        | None => Fault
        | Some c =>
            if is_valid c then Ok p w
            else
              match CreateStorageContext opener path url w with
              | Ok result w' =>
                  Ok result (set_registered_state
                               (fun m => <[storage_account_name url := result]> m) w')
              | Throw e w' => Throw e w'
              | Fault => Fault
              | OutOfFuel => OutOfFuel
              end
        end
    end.
Proof.
  intros Hc Hcc. unfold GetOrCreateStorageContext.
  unfold caching_enabled in Hc. rewrite Hc, Hcc. simpl.
  unfold bind at 1, get.
  destruct (registered_state w !! storage_account_name url) as [p|].
  - unfold bind at 1, deref.
    destruct (objects w !! p) as [c|]; [|reflexivity].
    unfold IsValid. destruct (is_valid c); [reflexivity|]. simpl.
    unfold bind at 1.
    destruct (CreateStorageContext opener path url w); reflexivity.
  - unfold bind at 1.
    destruct (CreateStorageContext opener path url w); reflexivity.
Qed.

Lemma GetOrCreateStorageContext_uncached_eq opener path url (w : Session) :
  caching_enabled opener = false ->
  GetOrCreateStorageContext opener path url w
  = CreateStorageContext opener path url w.
Proof.
  intros Hc. unfold GetOrCreateStorageContext.
  unfold caching_enabled in Hc. rewrite Hc. reflexivity.
Qed.

Lemma GetOrCreateStorageContext_no_client_context opener path url (w : Session) :
  caching_enabled opener = true ->
  TryGetClientContext opener = false ->
  GetOrCreateStorageContext opener path url w = Fault.
Proof.
  intros Hc Hcc. unfold GetOrCreateStorageContext.
  unfold caching_enabled in Hc. rewrite Hc, Hcc. reflexivity.
Qed.

Lemma cached_append name p (w : Session) c :
  cached name p w -> cached name p (set_objects (fun os => (os ++ [c])%list) w).
Proof.
  intros [Hreg (c0 & Hobj & Hvalid)]. split; [exact Hreg|].
  exists c0. split; [|exact Hvalid]. simpl.
  apply lookup_app_l_Some. exact Hobj.
Qed.

Lemma cached_register_other name p (w : Session)
    (f : gmap string nat -> gmap string nat) :
  (forall m, f m !! name = m !! name) ->
  cached name p w -> cached name p (set_registered_state f w).
Proof.
  intros Hf [Hreg Hobj]. split; [|exact Hobj]. simpl. rewrite Hf. exact Hreg.
Qed.

(** A successful access under caching leaves the account's entry at the
    returned object, which is valid. *)
Lemma GetOrCreateStorageContext_caches opener path url (w : Session) p w1 :
  caching_enabled opener = true ->
  GetOrCreateStorageContext opener path url w = Ok p w1 ->
  cached (storage_account_name url) p w1.
Proof.
  intros Hc H.
  destruct (TryGetClientContext opener) eqn:Hcc.
  2:{ rewrite GetOrCreateStorageContext_no_client_context in H by assumption.
      discriminate. }
  rewrite GetOrCreateStorageContext_cached_eq in H by assumption.
  destruct (registered_state w !! storage_account_name url) as [p0|] eqn:Hreg.
  - destruct (objects w !! p0) as [c|] eqn:Hobj; [|discriminate].
    destruct (is_valid c) eqn:Hvalid.
    + injection H as <- <-. split; [exact Hreg|]. exists c. auto.
    + destruct (CreateStorageContext opener path url w) as [q w'| | |] eqn:Hcreate;
        try discriminate.
      injection H as <- <-.
      apply CreateStorageContext_Ok in Hcreate as (client & _ & -> & ->).
      split; simpl.
      * apply lookup_insert_eq.
      * eexists. split; [apply list_lookup_middle; reflexivity | reflexivity].
  - destruct (CreateStorageContext opener path url w) as [q w'| | |] eqn:Hcreate;
      try discriminate.
    injection H as <- <-.
    apply CreateStorageContext_Ok in Hcreate as (client & _ & -> & ->).
    split; simpl.
    + unfold map_insert_new. rewrite Hreg. apply lookup_insert_eq.
    + eexists. split; [apply list_lookup_middle; reflexivity | reflexivity].
Qed.

(** While the entry is valid, an access for the account returns it and
    changes nothing. *)
Lemma GetOrCreateStorageContext_hit opener path url (w : Session) p :
  caching_enabled opener = true ->
  TryGetClientContext opener = true ->
  cached (storage_account_name url) p w ->
  GetOrCreateStorageContext opener path url w = Ok p w.
Proof.
  intros Hc Hcc [Hreg (c & Hobj & Hvalid)].
  rewrite GetOrCreateStorageContext_cached_eq by assumption.
  rewrite Hreg, Hobj, Hvalid. reflexivity.
Qed.

(** An access, for whatever account, keeps a valid entry. *)
Lemma GetOrCreateStorageContext_keeps opener path url (w : Session) name p r :
  cached name p w ->
  GetOrCreateStorageContext opener path url w = r ->
  match r with
  | Ok _ w1 | Throw _ w1 => cached name p w1
  | _ => True
  end.
Proof.
  intros Hcached <-.
  destruct (caching_enabled opener) eqn:Hc.
  2:{ rewrite GetOrCreateStorageContext_uncached_eq by assumption.
      destruct (CreateStorageContext opener path url w) as [q w'|e w'| |] eqn:Hcreate;
        try exact I.
      - apply CreateStorageContext_Ok in Hcreate as (client & _ & _ & ->).
        apply cached_append, Hcached.
      - apply CreateStorageContext_Throw in Hcreate as ->. exact Hcached. }
  destruct (TryGetClientContext opener) eqn:Hcc.
  2:{ rewrite GetOrCreateStorageContext_no_client_context by assumption. exact I. }
  destruct (String.eqb_spec (storage_account_name url) name) as [E|E].
  - rewrite (GetOrCreateStorageContext_hit opener path url w p); auto.
    rewrite E. exact Hcached.
  - rewrite GetOrCreateStorageContext_cached_eq by assumption.
    destruct (registered_state w !! storage_account_name url) as [p0|] eqn:Hreg.
    + destruct (objects w !! p0) as [c|]; [|exact I].
      destruct (is_valid c); [exact Hcached|].
      destruct (CreateStorageContext opener path url w) as [q w'|e w'| |] eqn:Hcreate;
        try exact I.
      * apply CreateStorageContext_Ok in Hcreate as (client & _ & _ & ->).
        apply cached_register_other.
        { intros m. apply lookup_insert_ne, E. }
        apply cached_append, Hcached.
      * apply CreateStorageContext_Throw in Hcreate as ->. exact Hcached.
    + destruct (CreateStorageContext opener path url w) as [q w'|e w'| |] eqn:Hcreate;
        try exact I.
      * apply CreateStorageContext_Ok in Hcreate as (client & _ & _ & ->).
        apply cached_register_other.
        { intros m. unfold map_insert_new.
          destruct (m !! storage_account_name url); [reflexivity|].
          apply lookup_insert_ne, E. }
        apply cached_append, Hcached.
      * apply CreateStorageContext_Throw in Hcreate as ->. exact Hcached.
Qed.

Lemma accesses_keep (w w2 : Session) name p :
  accesses w w2 -> cached name p w -> cached name p w2.
Proof.
  induction 1 as [w|opener path url w q w1 w2 Hstep _ IH
                  |opener path url w e w1 w2 Hstep _ IH]; intros Hcached.
  - exact Hcached.
  - apply IH.
    exact (GetOrCreateStorageContext_keeps opener path url w name p _ Hcached Hstep).
  - apply IH.
    exact (GetOrCreateStorageContext_keeps opener path url w name p _ Hcached Hstep).
Qed.

Lemma QueryEnd_cached name p (w : Session) :
  cached name p w ->
  exists c,
    objects w !! p = Some c /\
    QueryEnd p w
    = Ok tt (set_objects (fun os => <[p := AzureBlobContextState_QueryEnd c]> os) w).
Proof.
  intros [_ (c & Hobj & _)]. exists c. split; [exact Hobj|].
  unfold QueryEnd, bind, deref. rewrite Hobj. reflexivity.
Qed.

(** C7. Under context caching, once an access for an account has returned
    the context object [p], every later access for the same account
    name, after any sequence of accesses in between, returns [p] again
    and leaves the session as it is.  After [QueryEnd] on [p], the next
    access for the account (when connecting succeeds) returns an object
    allocated by that access: its address is unused before and differs
    from [p], it is valid and built from the new client and options, and
    accesses after it return it in turn. *)
Theorem context_cache_reuse_and_renewal
    (opener : option FileOpener) (path : string) (parsed_url : AzureParsedUrl)
    (w : Session) (p : nat) (w1 w2 : Session)
    (opener' : option FileOpener) (path' : string) (parsed_url' : AzureParsedUrl) :
  caching_enabled opener = true ->
  GetOrCreateStorageContext opener path parsed_url w = Ok p w1 ->
  accesses w1 w2 ->
  caching_enabled opener' = true ->
  TryGetClientContext opener' = true ->
  storage_account_name parsed_url' = storage_account_name parsed_url ->
  GetOrCreateStorageContext opener' path' parsed_url' w2 = Ok p w2 /\
  exists w3,
    QueryEnd p w2 = Ok tt w3 /\
    forall client,
      ConnectToBlobStorageAccount opener' path' parsed_url' = Returns client ->
      exists w4,
        let p' := List.length (objects w3) in
        GetOrCreateStorageContext opener' path' parsed_url' w3 = Ok p' w4 /\
        p' <> p /\
        objects w3 !! p' = None /\
        objects w4 !! p'
        = Some (AzureBlobContextState_new client (ParseAzureReadOptions opener')) /\
        GetOrCreateStorageContext opener' path' parsed_url' w4 = Ok p' w4.
Proof.
  intros Hc Hfirst Hseq Hc' Hcc' Hname.
  assert (cached (storage_account_name parsed_url') p w2) as Hcached.
  { rewrite Hname. apply (accesses_keep w1); [exact Hseq|].
    exact (GetOrCreateStorageContext_caches _ _ _ _ _ _ Hc Hfirst). }
  split; [apply GetOrCreateStorageContext_hit; assumption|].
  destruct (QueryEnd_cached _ _ _ Hcached) as (c & Hobj & Hend).
  eexists. split; [exact Hend|].
  intros client Hconnect.
  set (w3 := set_objects (fun os => <[p := AzureBlobContextState_QueryEnd c]> os) w2).
  assert (p < List.length (objects w2))%nat as Hlt
    by (apply lookup_lt_Some with (x := c); exact Hobj).
  assert (List.length (objects w3) = List.length (objects w2)) as Hlen
    by (simpl; apply length_insert).
  assert (GetOrCreateStorageContext opener' path' parsed_url' w3
          = Ok (List.length (objects w3))
              (set_registered_state
                 (fun m => <[storage_account_name parsed_url' := List.length (objects w3)]> m)
                 (set_objects
                    (fun os => (os ++ [AzureBlobContextState_new client
                                         (ParseAzureReadOptions opener')])%list) w3)))
    as Hnext.
  { rewrite GetOrCreateStorageContext_cached_eq by assumption.
    destruct Hcached as [Hreg _].
    replace (registered_state w3) with (registered_state w2) by reflexivity.
    rewrite Hreg.
    replace (objects w3 !! p) with (Some (AzureBlobContextState_QueryEnd c)).
    2:{ symmetry. simpl. apply list_lookup_insert_eq. exact Hlt. }
    simpl is_valid. cbv iota.
    rewrite (CreateStorageContext_Returns _ _ _ _ client Hconnect). reflexivity. }
  eexists. cbv zeta. split; [exact Hnext|].
  split; [lia|].
  split; [apply lookup_ge_None; lia|].
  split; [simpl; apply list_lookup_middle; reflexivity|].
  apply GetOrCreateStorageContext_hit; try assumption.
  split; simpl.
  - apply lookup_insert_eq.
  - eexists. split; [apply list_lookup_middle; reflexivity | reflexivity].
Qed.

(** ** What a handle keeps *)

Lemma same_file_refl h : same_file h h.
Proof. constructor; reflexivity. Qed.

Lemma same_file_trans h1 h2 h3 :
  same_file h1 h2 -> same_file h2 h3 -> same_file h1 h3.
Proof. intros [] []. constructor; congruence. Qed.

Lemma keeps_ret {A} (a : A) : keeps_file (ret a).
Proof. intros st. apply same_file_refl. Qed.

Lemma keeps_throw {A} (e : exception) : keeps_file (@throw _ A e).
Proof. intros st. apply same_file_refl. Qed.

Lemma keeps_get : keeps_file get.
Proof. intros st. apply same_file_refl. Qed.

Lemma keeps_bind {A B} (m : M ReadState A) (k : A -> M ReadState B) :
  keeps_file m -> (forall a, keeps_file (k a)) -> keeps_file (bind m k).
Proof.
  intros Hm Hk st. unfold bind. specialize (Hm st).
  destruct (m st) as [a st1|e st1| |]; try exact Hm; try exact I.
  specialize (Hk a st1).
  destruct (k a st1) as [b st2|e st2| |]; try exact I;
    exact (same_file_trans _ _ _ Hm Hk).
Qed.

Lemma keeps_modify (f : AzureBlobStorageFileHandle -> AzureBlobStorageFileHandle) :
  (forall h, same_file h (f h)) -> keeps_file (modify (set_hfh f)).
Proof. intros Hf st. apply Hf. Qed.

Lemma keeps_log (d : download) : keeps_file (modify (log_download d)).
Proof. intros st. apply same_file_refl. Qed.

Lemma keeps_D_ASSERT (cond : bool) : keeps_file (D_ASSERT cond).
Proof.
  unfold D_ASSERT. destruct (DEBUG && negb cond); [apply keeps_throw | apply keeps_ret].
Qed.

Lemma keeps_store dst bs : keeps_file (store dst bs).
Proof.
  intros st. unfold store. destruct dst as [off|].
  - destruct (mem_write (buffer st) off bs); [apply same_file_refl | exact I].
  - destruct (mem_write (read_buffer (hfh st)) 0 bs); [|exact I].
    constructor; reflexivity.
Qed.

Lemma keeps_memcpy off idx len : keeps_file (memcpy_from_read_buffer off idx len).
Proof.
  intros st. unfold memcpy_from_read_buffer.
  destruct (mem_read (read_buffer (hfh st)) idx len); [apply keeps_store | exact I].
Qed.

Lemma keeps_ReadRange file_offset dst len : keeps_file (ReadRange file_offset dst len).
Proof.
  unfold ReadRange. apply keeps_bind; [apply keeps_get|]. intros st.
  apply keeps_bind; [apply keeps_log|]. intros _.
  destruct (DownloadTo _ _ _) as [bs|e]; [apply keeps_store|].
  destruct e; apply keeps_throw.
Qed.

Ltac keeps_setters := apply keeps_modify; intros ?; constructor; reflexivity.

Lemma keeps_Read_from_buffer to_read buffer_offset :
  keeps_file (Read_from_buffer to_read buffer_offset).
Proof.
  unfold Read_from_buffer. apply keeps_bind; [apply keeps_get|]. intros st.
  destruct (_ >? 0); [|apply keeps_ret].
  apply keeps_bind; [apply keeps_D_ASSERT|]. intros _.
  apply keeps_bind; [apply keeps_memcpy|]. intros _.
  apply keeps_bind; [keeps_setters|]. intros _. apply keeps_ret.
Qed.

Lemma keeps_Read_loop fuel location to_read buffer_offset :
  keeps_file (Read_loop fuel location to_read buffer_offset).
Proof.
  revert to_read buffer_offset.
  induction fuel as [|fuel IH]; intros to_read buffer_offset; simpl.
  - destruct (to_read >? 0); [intros st; exact I | apply keeps_ret].
  - destruct (to_read >? 0); [|apply keeps_ret].
    apply keeps_bind; [apply keeps_Read_from_buffer|]. intros locals.
    apply keeps_bind; [apply keeps_get|]. intros st.
    destruct (_ && _); [|apply IH].
    destruct (_ >? _).
    + apply keeps_bind; [apply keeps_ReadRange|]. intros _. keeps_setters.
    + apply keeps_bind; [apply keeps_ReadRange|]. intros _.
      apply keeps_bind; [keeps_setters|]. intros _. apply IH.
Qed.

Lemma keeps_Read nr_bytes location fuel : keeps_file (Read nr_bytes location fuel).
Proof.
  unfold Read. apply keeps_bind; [apply keeps_get|]. intros st.
  destruct (_ && _).
  - apply keeps_bind; [apply keeps_ReadRange|]. intros _. keeps_setters.
  - apply keeps_bind; [|intros _; apply keeps_Read_loop].
    destruct (_ && _); keeps_setters.
Qed.

Lemma keeps_Read_at_offset nr_bytes fuel : keeps_file (Read_at_offset nr_bytes fuel).
Proof.
  unfold Read_at_offset. apply keeps_bind; [apply keeps_get|]. intros st.
  apply keeps_bind; [apply keeps_Read|]. intros _. apply keeps_ret.
Qed.

Lemma used_same_file h0 h : used h0 h -> same_file h0 h.
Proof.
  induction 1 as [|h location _ IH
                  |h buf dls nr_bytes location fuel st' _ IH Hread
                  |h buf dls nr_bytes fuel st' _ IH Hread].
  - apply same_file_refl.
  - apply (same_file_trans _ _ _ IH). constructor; reflexivity.
  - apply (same_file_trans _ _ _ IH).
    pose proof (keeps_Read nr_bytes location fuel
                  {| hfh := h; buffer := buf; downloads := dls |}) as K.
    destruct Hread as [E|[e E]]; rewrite E in K; exact K.
  - apply (same_file_trans _ _ _ IH).
    pose proof (keeps_Read_at_offset nr_bytes fuel
                  {| hfh := h; buffer := buf; downloads := dls |}) as K.
    destruct Hread as [[n E]|[e E]]; rewrite E in K; exact K.
Qed.

(** ** What opening builds *)

Lemma AzureBlobStorageFileHandle_new_Ok path flags c options (w : Session) h w' :
  AzureBlobStorageFileHandle_new path flags c options w = Ok h w' ->
  exists BlobSize,
    GetProperties c = Returns BlobSize /\
    h = {| fh_path := path; fh_flags := flags; fh_length := u64 BlobSize;
           last_modified := 0;
           read_buffer :=
             if truthy (Z.land flags FILE_FLAGS_READ)
             then repeat Byte.x00 (Z.to_nat (buffer_size options))
             else [];
           buffer_available := 0; buffer_idx := 0; file_offset := 0;
           buffer_start := 0; buffer_end := 0; blob_client := c;
           fh_read_options := options |}.
Proof.
  unfold AzureBlobStorageFileHandle_new, bind, GetProperties_or_IOException.
  destruct (GetProperties c) as [BlobSize|e].
  - intros H. exists BlobSize. split; [reflexivity|].
    destruct (truthy (Z.land flags FILE_FLAGS_READ)); injection H as <- _; reflexivity.
  - destruct e; discriminate.
Qed.

Lemma OpenFile_Ok path flags lock compression opener (w : Session) h w' :
  OpenFile path flags lock compression opener w = Ok h w' ->
  exists c options w0,
    AzureBlobStorageFileHandle_new path flags c options w0 = Ok h w'.
Proof.
  unfold OpenFile. unfold bind at 1.
  destruct (D_ASSERT _ w) as [[] w1|e w1| |]; try discriminate.
  destruct (truthy (Z.land flags FILE_FLAGS_WRITE)); [discriminate|].
  unfold bind at 1.
  destruct (CreateHandle path flags lock compression opener w1)
    as [h1 w2|e w2| |] eqn:Hcreate; try discriminate.
  intros [= <- <-].
  unfold CreateHandle in Hcreate. destruct opener as [o|]; [|discriminate].
  unfold bind at 1 in Hcreate.
  destruct (D_ASSERT _ w1) as [[] w3|e w3| |]; try discriminate.
  unfold bind at 1 in Hcreate.
  destruct (call (ParseUrl path) w3) as [url w4|e w4| |]; try discriminate.
  unfold bind at 1 in Hcreate.
  destruct (GetOrCreateStorageContext (Some o) path url w4)
    as [p w5|e w5| |]; try discriminate.
  unfold bind at 1 in Hcreate.
  destruct (deref p w5) as [context w6|e w6| |]; try discriminate.
  eauto.
Qed.

(** C9. The handle that [OpenFile] returns has the modification time 0,
    the value of [time_t()], and so has the handle after any seeks and
    reads: [GetLastModifiedTime] returns 0. *)
Theorem GetLastModifiedTime_is_zero
    (path : string) (flags : Z) (lock : FileLockType)
    (compression : FileCompressionType) (opener : option FileOpener)
    (w : Session) (handle : AzureBlobStorageFileHandle) (w' : Session) :
  OpenFile path flags lock compression opener w = Ok handle w' ->
  GetLastModifiedTime handle = 0 /\
  forall handle', used handle handle' -> GetLastModifiedTime handle' = 0.
Proof.
  intros Hopen.
  apply OpenFile_Ok in Hopen as (c & options & w0 & Hnew).
  apply AzureBlobStorageFileHandle_new_Ok in Hnew as (BlobSize & _ & ->).
  split; [reflexivity|].
  intros handle' Hused. apply used_same_file in Hused.
  unfold GetLastModifiedTime. rewrite (same_last_modified _ _ Hused). reflexivity.
Qed.

(** ** Regions and ranges *)

Lemma mem_write_splice (r : region) (off : Z) (bs : list Byte.byte) :
  0 <= off -> off + Z.of_nat (List.length bs) <= Z.of_nat (List.length r) ->
  mem_write r off bs = Some (splice r off bs).
Proof.
  intros H1 H2. unfold mem_write.
  destruct (Z.leb_spec 0 off); [|lia].
  destruct (Z.leb_spec (off + Z.of_nat (List.length bs)) (Z.of_nat (List.length r)));
    [reflexivity | lia].
Qed.

Lemma mem_read_take (r : region) (off len : Z) :
  0 <= off -> 0 <= len -> off + len <= Z.of_nat (List.length r) ->
  mem_read r off len = Some (take (Z.to_nat len) (drop (Z.to_nat off) r)).
Proof.
  intros H1 H2 H3. unfold mem_read.
  destruct (Z.leb_spec 0 off); [|lia].
  destruct (Z.leb_spec 0 len); [|lia].
  destruct (Z.leb_spec (off + len) (Z.of_nat (List.length r))); [reflexivity | lia].
Qed.

Lemma splice_length (r : region) (off : Z) (bs : list Byte.byte) :
  0 <= off -> off + Z.of_nat (List.length bs) <= Z.of_nat (List.length r) ->
  List.length (splice r off bs) = List.length r.
Proof.
  intros H1 H2. unfold splice.
  rewrite !length_app, length_take, length_drop. lia.
Qed.

Lemma splice_nil (r : region) (off : Z) : splice r off [] = r.
Proof.
  unfold splice. simpl. rewrite Nat.add_0_r. apply take_drop.
Qed.

Lemma splice_splice (r : region) (off : Z) (a b : list Byte.byte) :
  0 <= off ->
  off + Z.of_nat (List.length a) + Z.of_nat (List.length b)
  <= Z.of_nat (List.length r) ->
  splice (splice r off a) (off + Z.of_nat (List.length a)) b
  = splice r off (a ++ b)%list.
Proof.
  intros H1 H2. unfold splice.
  replace (Z.to_nat (off + Z.of_nat (List.length a)))
    with (Z.to_nat off + List.length a)%nat by lia.
  assert (Z.to_nat off + List.length a + List.length b <= List.length r)%nat
    as Hab by lia.
  clear H1 H2. revert Hab. generalize (Z.to_nat off). intros n Hab.
  assert (List.length (take n r) = n) as Ht by (rewrite length_take; lia).
  rewrite (app_assoc (take n r) a).
  rewrite take_app_length' by (rewrite length_app; lia).
  rewrite drop_app_ge by (rewrite length_app; lia).
  rewrite !length_app, Ht, drop_drop.
  replace (n + List.length a + List.length b - (n + List.length a))%nat
    with (List.length b) by lia.
  rewrite <- !app_assoc. do 3 f_equal. f_equal. lia.
Qed.

Lemma take_splice_0 (r : region) (bs : list Byte.byte) :
  take (List.length bs) (splice r 0 bs) = bs.
Proof. unfold splice. simpl. apply take_app_length. Qed.

Lemma blob_range_length (blob : list Byte.byte) (off len : Z) :
  0 <= off -> 0 <= len -> off + len <= Z.of_nat (List.length blob) ->
  Z.of_nat (List.length (blob_range blob off len)) = len.
Proof.
  intros H1 H2 H3. unfold blob_range. rewrite length_take, length_drop. lia.
Qed.

Lemma blob_range_app (blob : list Byte.byte) (off a b : Z) :
  0 <= off -> 0 <= a -> 0 <= b ->
  (blob_range blob off a ++ blob_range blob (off + a) b)%list
  = blob_range blob off (a + b).
Proof.
  intros H1 H2 H3. unfold blob_range.
  replace (Z.to_nat (off + a)) with (Z.to_nat off + Z.to_nat a)%nat by lia.
  replace (Z.to_nat (a + b)) with (Z.to_nat a + Z.to_nat b)%nat by lia.
  rewrite <- drop_drop. apply take_take_drop.
Qed.

Lemma blob_range_0 (blob : list Byte.byte) (off : Z) : blob_range blob off 0 = [].
Proof. reflexivity. Qed.

(** ** The buffered read *)

Lemma MinValue_idx_t_small a b :
  0 <= a < 2 ^ 64 -> 0 <= b < 2 ^ 64 -> MinValue_idx_t a b = Z.min a b.
Proof. intros Ha Hb. unfold MinValue_idx_t. rewrite !u64_small by assumption. reflexivity. Qed.

Lemma D_ASSERT_true {S} (cond : bool) (s : S) : cond = true -> D_ASSERT cond s = Ok tt s.
Proof. intros ->. unfold D_ASSERT. rewrite andb_false_r. reflexivity. Qed.

Lemma advance_0 h : advance 0 h = h.
Proof.
  destruct h. unfold advance, set_file_offset, set_buffer_available, set_buffer_idx.
  simpl. rewrite !Z.add_0_r, Z.sub_0_r. reflexivity.
Qed.

Ltac u64_simpl :=
  repeat match goal with
         | |- context [u64 ?z] => rewrite (u64_small z) by lia
         end.

Lemma Read_from_buffer_eq (st : ReadState) (to_read buffer_offset : Z) :
  handle_wf (hfh st) ->
  0 <= to_read -> 0 <= buffer_offset ->
  buffer_offset + to_read <= Z.of_nat (List.length (buffer st)) ->
  buffer_offset + to_read < 2 ^ 64 ->
  (buffer_available (hfh st) = 0 \/
   file_offset (hfh st) = buffer_start (hfh st) + buffer_idx (hfh st)) ->
  let n := Z.min (buffer_available (hfh st)) to_read in
  Read_from_buffer to_read buffer_offset st
  = Ok (to_read - n, buffer_offset + n)
      {| hfh := advance n (hfh st);
         buffer := splice (buffer st) buffer_offset
                     (take (Z.to_nat n)
                        (drop (Z.to_nat (buffer_idx (hfh st))) (read_buffer (hfh st))));
         downloads := downloads st |}.
Proof.
  intros Hwf Htr Hbo Hfit Hsmall Hcursor n.
  destruct Hwf as [Hbs Hlen Hwin Hend Hfits Hidx Hav Hcur Hoff].
  unfold Read_from_buffer, bind at 1, get.
  rewrite MinValue_idx_t_small by lia. fold n.
  assert (0 <= n <= buffer_available (hfh st) /\ n <= to_read) as Hn' by (unfold n; lia).
  clearbody n.
  destruct (Z.gtb_spec n 0) as [Hn|Hn].
  - assert (file_offset (hfh st) = buffer_start (hfh st) + buffer_idx (hfh st)) as Hfo by lia.
    unfold bind at 1. rewrite D_ASSERT_true.
    2:{ u64_simpl. apply Z.leb_le. lia. }
    unfold bind at 1, memcpy_from_read_buffer.
    rewrite mem_read_take by lia.
    unfold store. rewrite mem_write_splice.
    2: lia.
    2:{ rewrite length_take, length_drop. lia. }
    unfold bind at 1, modify, ret, set_hfh. cbn [hfh buffer downloads].
    u64_simpl. reflexivity.
  - assert (n = 0) as -> by lia.
    unfold ret. rewrite Z.sub_0_r, Z.add_0_r, advance_0. cbn [Z.to_nat take].
    rewrite splice_nil. destruct st; reflexivity.
Qed.

Lemma ReadRange_eq (st : ReadState) (off : Z) (dst : destination) (len : Z) :
  ReadRange off dst len st
  = let d := download_of (hfh st) off dst len in
    match DownloadTo (blob_client (hfh st)) len (dl_options d) with
    | Returns bs => store dst bs (log_download d st)
    | Throws (StorageException ErrorCode ReasonPhrase _) =>
        Throw (IOException
                 ("AzureBlobStorageFileSystem Read to " ++ fh_path (hfh st)
                  ++ " failed with " ++ ErrorCode
                  ++ "Reason Phrase: " ++ ReasonPhrase)) (log_download d st)
    | Throws e => Throw e (log_download d st)
    end.
Proof.
  unfold ReadRange, bind, get, modify, download_of. cbn [dl_options].
  destruct (DownloadTo _ _ _) as [bs|e]; [reflexivity|].
  destruct e; reflexivity.
Qed.

Lemma Read_loop_S (fuel : nat) (location to_read buffer_offset : Z) :
  0 < to_read ->
  Read_loop (S fuel) location to_read buffer_offset
  = do locals <- Read_from_buffer to_read buffer_offset;
    do st <- get;
    if (fst locals >? 0) && (buffer_available (hfh st) =? 0) then
      let new_buffer_available :=
        MinValue_idx_t (buffer_size (fh_read_options (hfh st)))
          (u64 (fh_length (hfh st) - file_offset (hfh st))) in
      if fst locals >? new_buffer_available then
        run ReadRange (u64 (location + snd locals)) (to_buffer (snd locals))
              (fst locals);
        modify (set_hfh (fun h =>
          set_file_offset (u64 (file_offset h + fst locals))
            (set_buffer_idx 0 (set_buffer_available 0 h))))
      else
        run ReadRange (file_offset (hfh st)) to_read_buffer new_buffer_available;
        run modify (set_hfh (fun h =>
              let h := set_buffer_available new_buffer_available h in
              let h := set_buffer_idx 0 h in
              let h := set_buffer_start (file_offset h) h in
              set_buffer_end (u64 (buffer_start h + new_buffer_available)) h));
        Read_loop fuel location (fst locals) (snd locals)
    else Read_loop fuel location (fst locals) (snd locals).
Proof.
  intros H. simpl. destruct (Z.gtb_spec to_read 0); [reflexivity | lia].
Qed.

Lemma Read_loop_0 (fuel : nat) (location to_read buffer_offset : Z) :
  to_read <= 0 -> Read_loop fuel location to_read buffer_offset = ret tt.
Proof.
  intros H. destruct fuel; simpl; destruct (Z.gtb_spec to_read 0); (reflexivity || lia).
Qed.

Lemma Read_buffered (nr_bytes location : Z) (fuel : nat) (st : ReadState) :
  truthy (Z.land (fh_flags (hfh st)) FILE_FLAGS_DIRECT_IO) && (u64 nr_bytes >? 0) = false ->
  Read nr_bytes location fuel st
  = Read_loop fuel location (u64 nr_bytes) 0
      (set_hfh (fun h => positioned h location) st).
Proof.
  intros H. unfold Read, bind at 1, get. rewrite H.
  clear H. unfold bind, positioned, modify, set_hfh.
  destruct ((location >=? buffer_start (hfh st)) && (location <? buffer_end (hfh st)));
    reflexivity.
Qed.

Lemma Read_direct (nr_bytes location : Z) (fuel : nat) (st : ReadState) :
  truthy (Z.land (fh_flags (hfh st)) FILE_FLAGS_DIRECT_IO) && (u64 nr_bytes >? 0) = true ->
  Read nr_bytes location fuel st
  = (run ReadRange location (to_buffer 0) (u64 nr_bytes);
     modify (set_hfh (fun h =>
       set_file_offset (u64 (location + nr_bytes))
         (set_buffer_idx 0 (set_buffer_available 0 h))))) st.
Proof.
  intros H. unfold Read, bind at 1, get. rewrite H. reflexivity.
Qed.

Lemma positioned_same_file h location : same_file h (positioned h location).
Proof. unfold positioned. destruct (_ && _); constructor; reflexivity. Qed.

Lemma positioned_facts h location :
  handle_wf h -> 0 <= location < 2 ^ 64 ->
  handle_wf (positioned h location) /\
  buffer_available (positioned h location) = window_available h location /\
  file_offset (positioned h location) = location /\
  (buffer_available (positioned h location) = 0 \/
   file_offset (positioned h location)
   = buffer_start (positioned h location) + buffer_idx (positioned h location)) /\
  read_buffer (positioned h location) = read_buffer h /\
  buffer_start (positioned h location) = buffer_start h /\
  buffer_end (positioned h location) = buffer_end h.
Proof.
  intros [Hbs Hlen Hwin Hend Hfits Hidx Hav Hcur Hoff] Hloc.
  unfold positioned, window_available.
  destruct (Z.geb_spec location (buffer_start h)) as [H1|H1];
    [destruct (Z.ltb_spec location (buffer_end h)) as [H2|H2]|];
    cbn [andb];
    cbn [set_file_offset set_buffer_idx set_buffer_available
         buffer_size fh_read_options fh_length buffer_start buffer_end read_buffer
         buffer_idx buffer_available file_offset];
    u64_simpl; (split; [constructor; cbn; lia|]); repeat split; lia.
Qed.

Lemma download_of_same h h' off dst len :
  same_file h h' -> download_of h' off dst len = download_of h off dst len.
Proof. intros []. unfold download_of. congruence. Qed.

Lemma advance_same_file n h : same_file h (advance n h).
Proof. constructor; reflexivity. Qed.


(** One turn of the loop, from a consistent handle whose cursor, if the
    buffer holds anything, stands at the file offset. *)
Lemma Read_loop_step (fuel : nat) (st : ReadState) (location to_read buffer_offset : Z) :
  handle_wf (hfh st) ->
  0 < to_read -> 0 <= buffer_offset -> 0 <= location ->
  buffer_offset + to_read <= Z.of_nat (List.length (buffer st)) ->
  location + buffer_offset + to_read < 2 ^ 64 ->
  (buffer_available (hfh st) = 0 \/
   file_offset (hfh st) = buffer_start (hfh st) + buffer_idx (hfh st)) ->
  let n := Z.min (buffer_available (hfh st)) to_read in
  let st2 :=
    {| hfh := advance n (hfh st);
       buffer := splice (buffer st) buffer_offset
                   (take (Z.to_nat n)
                      (drop (Z.to_nat (buffer_idx (hfh st))) (read_buffer (hfh st))));
       downloads := downloads st |} in
  Read_loop (S fuel) location to_read buffer_offset st
  = if to_read - n >? 0 then
      let new_buffer_available :=
        MinValue_idx_t (buffer_size (fh_read_options (hfh st)))
          (u64 (fh_length (hfh st) - (file_offset (hfh st) + n))) in
      if to_read - n >? new_buffer_available then
        (run ReadRange (location + (buffer_offset + n)) (to_buffer (buffer_offset + n))
               (to_read - n);
         modify (set_hfh (fun h =>
           set_file_offset (u64 (file_offset h + (to_read - n)))
             (set_buffer_idx 0 (set_buffer_available 0 h))))) st2
      else
        (run ReadRange (file_offset (hfh st) + n) to_read_buffer new_buffer_available;
         run modify (set_hfh (fun h =>
               let h := set_buffer_available new_buffer_available h in
               let h := set_buffer_idx 0 h in
               let h := set_buffer_start (file_offset h) h in
               set_buffer_end (u64 (buffer_start h + new_buffer_available)) h));
         Read_loop fuel location (to_read - n) (buffer_offset + n)) st2
    else Ok tt st2.
Proof.
  intros Hwf Htr Hbo Hloc Hbuf Hsum Hcur n st2.
  rewrite Read_loop_S by lia.
  unfold bind at 1.
  rewrite Read_from_buffer_eq by (assumption || lia).
  fold n. fold st2. cbn [fst snd].
  unfold bind at 1, get.
  assert (0 <= n <= buffer_available (hfh st) /\ n <= to_read) as Hn
    by (unfold n; destruct Hwf; lia).
  assert (n < to_read -> n = buffer_available (hfh st)) as Hn' by (unfold n; lia).
  clearbody n.
  destruct (Z.gtb_spec (to_read - n) 0) as [Hmore|Hdone].
  - replace (buffer_available (hfh st2) =? 0) with true
      by (symmetry; apply Z.eqb_eq; cbn; lia).
    cbn [andb]. cbn [hfh st2 advance set_file_offset set_buffer_available set_buffer_idx
                     fh_length file_offset fh_read_options].
    rewrite (u64_small (location + (buffer_offset + n))) by lia.
    destruct (_ >? _); reflexivity.
  - cbn [andb]. rewrite Read_loop_0 by lia. reflexivity.
Qed.

(** C6. In a buffered read (the handle has no direct-I/O flag), when what
    is left to read after the buffer has given what it holds for
    [location] exceeds the configured buffer size, [Read] sends exactly
    one download: for the remaining range, [nr_bytes - from_buffer] bytes
    at [location + from_buffer], into the caller's buffer at
    [from_buffer].  The read-ahead buffer and its window are not touched,
    and the handle is left with [buffer_available = 0], whether the
    download returns or throws. *)
Theorem Read_bypasses_buffer (st : ReadState) (nr_bytes location : Z) (fuel : nat) :
  downloads_fit ->
  handle_wf (hfh st) ->
  truthy (Z.land (fh_flags (hfh st)) FILE_FLAGS_DIRECT_IO) = false ->
  0 <= nr_bytes -> 0 <= location -> location + nr_bytes < 2 ^ 63 ->
  nr_bytes <= Z.of_nat (List.length (buffer st)) ->
  (1 <= fuel)%nat ->
  let from_buffer := Z.min (window_available (hfh st) location) nr_bytes in
  buffer_size (fh_read_options (hfh st)) < nr_bytes - from_buffer ->
  exists st',
    (Read nr_bytes location fuel st = Ok tt st' \/
     exists e, Read nr_bytes location fuel st = Throw e st') /\
    downloads st'
    = (downloads st
       ++ [download_of (hfh st) (location + from_buffer) (to_buffer from_buffer)
             (nr_bytes - from_buffer)])%list /\
    read_buffer (hfh st') = read_buffer (hfh st) /\
    buffer_start (hfh st') = buffer_start (hfh st) /\
    buffer_end (hfh st') = buffer_end (hfh st) /\
    buffer_available (hfh st') = 0.
Proof.
  intros Hfit Hwf Hflags Hnr Hloc Hsum Hbuf Hfuel n Hbig.
  destruct fuel as [|fuel]; [lia|].
  destruct (positioned_facts (hfh st) location Hwf ltac:(lia))
    as (Hwf1 & Hav1 & Hfo1 & Hcur1 & Hrb1 & Hst1 & Hen1).
  pose proof (positioned_same_file (hfh st) location) as Hsame1.
  assert (0 <= buffer_size (fh_read_options (hfh st)) < 2 ^ 64) as Hbs
    by (destruct Hwf; assumption).
  assert (0 <= window_available (hfh st) location) as Hwa
    by (rewrite <- Hav1; destruct Hwf1; assumption).
  rewrite Read_buffered by (rewrite Hflags; reflexivity).
  rewrite (u64_small nr_bytes) by lia.
  rewrite Read_loop_step; cbn [hfh buffer downloads set_hfh]; try assumption; try lia.
  rewrite Hav1, Hrb1, (same_read_options _ _ Hsame1). fold n.
  assert (0 <= n < nr_bytes /\ n = window_available (hfh st) location) as Hn
    by (unfold n in *; lia).
  clearbody n.
  set (h2 := advance n (positioned (hfh st) location)).
  assert (same_file (hfh st) h2) as Hsame2
    by (apply (same_file_trans _ _ _ Hsame1), advance_same_file).
  destruct (Z.gtb_spec (nr_bytes - n) 0) as [_|]; [|lia].
  match goal with
  | |- context [MinValue_idx_t ?a ?b] =>
      assert (MinValue_idx_t a b <= buffer_size (fh_read_options (hfh st))) as Hnba
        by (unfold MinValue_idx_t; rewrite (u64_small a) by lia; lia);
      destruct (Z.gtb_spec (nr_bytes - n) (MinValue_idx_t a b)) as [_|]; [|lia]
  end.
  cbn zeta. unfold bind. rewrite ReadRange_eq. cbn zeta. cbn [hfh].
  rewrite Z.add_0_l.
  rewrite (download_of_same _ _ _ _ _ Hsame2).
  rewrite (same_blob_client _ _ Hsame2).
  set (d := download_of (hfh st) (location + n) (to_buffer n) (nr_bytes - n)).
  destruct (DownloadTo (blob_client (hfh st)) (nr_bytes - n) (dl_options d))
    as [bs|e] eqn:Hdl.
  - apply Hfit in Hdl.
    unfold store, log_download. cbn [buffer hfh downloads].
    rewrite mem_write_splice.
    2: lia.
    2:{ rewrite splice_length; [lia | lia |].
        rewrite length_take, length_drop. lia. }
    eexists. split; [left; reflexivity|]. cbn.
    repeat split; assumption || reflexivity.
  - eexists. split.
    + right. destruct e; eexists; reflexivity.
    + unfold log_download. cbn [hfh downloads]. unfold h2. cbn.
      repeat split; assumption || reflexivity || lia.
Qed.

(** *** Buffered reads against a blob *)

Lemma holds_move blob h h' :
  handle_holds blob h ->
  same_file h h' ->
  read_buffer h' = read_buffer h ->
  buffer_start h' = buffer_start h ->
  buffer_end h' = buffer_end h ->
  0 <= buffer_idx h' -> 0 <= buffer_available h' ->
  buffer_idx h' + buffer_available h' <= buffer_end h - buffer_start h ->
  0 <= file_offset h' < 2 ^ 64 ->
  handle_holds blob h'.
Proof.
  intros [[Hbs Hlen Hwin Hend Hfits Hidx Hav Hcur Hoff] Hserves Hlength Halloc Hwithin Hwindow]
         [_ _ Elen _ Eclient Eopts] Erb Est Een Hidx' Hav' Hcur' Hoff'.
  constructor; [constructor|..]; rewrite ?Elen, ?Eclient, ?Eopts, ?Erb, ?Est, ?Een;
    assumption.
Qed.

Lemma window_bytes blob h (idx n : Z) :
  handle_holds blob h ->
  0 <= idx -> 0 <= n -> idx + n <= buffer_end h - buffer_start h ->
  take (Z.to_nat n) (drop (Z.to_nat idx) (read_buffer h))
  = blob_range blob (buffer_start h + idx) n.
Proof.
  intros [[_ _ Hwin _ _ _ _ _ _] _ _ _ _ Hwindow] Hidx Hn Hfit.
  unfold blob_range in *.
  set (W := Z.to_nat (buffer_end h - buffer_start h)) in *.
  assert (Z.to_nat idx + Z.to_nat n <= W)%nat as HW by (unfold W; lia).
  replace (Z.to_nat (buffer_start h + idx))
    with (Z.to_nat (buffer_start h) + Z.to_nat idx)%nat by lia.
  rewrite <- drop_drop.
  transitivity (take (Z.to_nat n) (drop (Z.to_nat idx) (take W (read_buffer h)))).
  - rewrite skipn_firstn_comm, take_take. f_equal. lia.
  - rewrite Hwindow. rewrite skipn_firstn_comm, take_take. f_equal. lia.
Qed.

Lemma blob_range_take blob (off n m : Z) :
  0 <= n <= m ->
  take (Z.to_nat n) (blob_range blob off m) = blob_range blob off n.
Proof.
  intros H. unfold blob_range. rewrite take_take. f_equal. lia.
Qed.

Lemma serves_ReadRange blob (st : ReadState) (off : Z) (dst : destination) (len : Z) :
  serves (blob_client (hfh st)) blob ->
  0 <= off -> 0 <= len -> off + len <= Z.of_nat (List.length blob) ->
  ReadRange off dst len st
  = store dst (blob_range blob off len)
      (log_download (download_of (hfh st) off dst len) st).
Proof.
  intros (Hsize & _ & Hdl) Hoff Hlen Hfit.
  rewrite ReadRange_eq. cbn zeta.
  rewrite Hdl; unfold download_of; cbn [dl_options Range Offset Length];
    rewrite ?s64_small by lia; try lia.
  reflexivity.
Qed.

Lemma splice_blob_ranges (r : region) (at_ : Z) blob (off a b : Z) :
  0 <= at_ -> 0 <= off -> 0 <= a -> 0 <= b ->
  off + a + b <= Z.of_nat (List.length blob) ->
  at_ + a + b <= Z.of_nat (List.length r) ->
  splice (splice r at_ (blob_range blob off a)) (at_ + a) (blob_range blob (off + a) b)
  = splice r at_ (blob_range blob off (a + b)).
Proof.
  intros Hat Hoff Ha Hb Hblob Hr.
  assert (Z.of_nat (List.length (blob_range blob off a)) = a) as La
    by (apply blob_range_length; lia).
  assert (Z.of_nat (List.length (blob_range blob (off + a) b)) = b) as Lb
    by (apply blob_range_length; lia).
  rewrite <- La at 2. rewrite splice_splice by lia.
  rewrite blob_range_app by lia. reflexivity.
Qed.

(** The loop when the buffer holds all that is left to read. *)
Lemma Read_loop_from_buffer blob (fuel : nat) (st : ReadState)
    (location to_read buffer_offset : Z) :
  handle_holds blob (hfh st) ->
  (1 <= fuel)%nat ->
  0 <= location -> 0 <= buffer_offset -> 0 <= to_read ->
  to_read <= buffer_available (hfh st) ->
  file_offset (hfh st) = location + buffer_offset ->
  file_offset (hfh st) = buffer_start (hfh st) + buffer_idx (hfh st) ->
  buffer_offset + to_read <= Z.of_nat (List.length (buffer st)) ->
  exists st',
    Read_loop fuel location to_read buffer_offset st = Ok tt st' /\
    buffer st'
    = splice (buffer st) buffer_offset
        (blob_range blob (location + buffer_offset) to_read) /\
    handle_holds blob (hfh st') /\
    file_offset (hfh st') = location + buffer_offset + to_read.
Proof.
  intros Hholds Hfuel Hloc Hbo Htr Hav Hfo Hcur Hbuf.
  pose proof (holds_wf _ _ Hholds) as Hwf.
  pose proof Hwf as [Hbs Hlen Hwin Hend Hfits Hidx Hav0 Hcur0 Hoff].
  destruct (Z.eq_dec to_read 0) as [->|Hpos].
  { rewrite Read_loop_0 by lia. exists st. split; [reflexivity|].
    rewrite blob_range_0, splice_nil. split; [reflexivity|]. split; [assumption | lia]. }
  destruct fuel as [|fuel]; [lia|].
  rewrite Read_loop_step by (assumption || lia).
  replace (Z.min (buffer_available (hfh st)) to_read) with to_read by lia.
  rewrite Z.sub_diag. cbn [Z.gtb Z.compare].
  eexists. split; [reflexivity|]. cbn [buffer hfh].
  split; [|split].
  - rewrite (window_bytes blob) by (assumption || lia).
    do 2 f_equal. lia.
  - apply (holds_move blob (hfh st)); try assumption;
      try (constructor; reflexivity); try reflexivity; cbn; lia.
  - cbn. lia.
Qed.

(** The loop, from a handle that holds the blob. *)
Lemma Read_loop_holds blob (fuel : nat) (st : ReadState)
    (location to_read buffer_offset : Z) :
  handle_holds blob (hfh st) ->
  (2 <= fuel)%nat ->
  0 <= location -> 0 <= buffer_offset -> 0 <= to_read ->
  file_offset (hfh st) = location + buffer_offset ->
  (buffer_available (hfh st) = 0 \/
   file_offset (hfh st) = buffer_start (hfh st) + buffer_idx (hfh st)) ->
  location + buffer_offset + to_read <= Z.of_nat (List.length blob) ->
  buffer_offset + to_read <= Z.of_nat (List.length (buffer st)) ->
  exists st',
    Read_loop fuel location to_read buffer_offset st = Ok tt st' /\
    buffer st'
    = splice (buffer st) buffer_offset
        (blob_range blob (location + buffer_offset) to_read) /\
    handle_holds blob (hfh st') /\
    file_offset (hfh st') = location + buffer_offset + to_read.
Proof.
  intros Hholds Hfuel Hloc Hbo Htr Hfo Hcur Hblob Hbuf.
  pose proof (holds_wf _ _ Hholds) as Hwf.
  pose proof Hwf as [Hbs Hlen Hwin Hend Hfits Hidx Hav0 Hcur0 Hoff].
  pose proof Hholds as [_ Hserves Hlength Halloc Hwithin Hwindow].
  pose proof Hserves as (Hsize & _ & _).
  destruct (Z.le_gt_cases to_read (buffer_available (hfh st))) as [Hle|Hgt].
  { destruct (Z.eq_dec to_read 0) as [->|Hpos].
    - rewrite Read_loop_0 by lia. exists st. split; [reflexivity|].
      rewrite blob_range_0, splice_nil. split; [reflexivity|]. split; [assumption | lia].
    - apply Read_loop_from_buffer; try assumption; lia. }
  destruct fuel as [|fuel]; [lia|].
  rewrite Read_loop_step by (assumption || lia).
  set (n := Z.min (buffer_available (hfh st)) to_read).
  assert (n = buffer_available (hfh st)) as Hn by (unfold n; lia).
  clearbody n.
  assert (take (Z.to_nat n)
            (drop (Z.to_nat (buffer_idx (hfh st))) (read_buffer (hfh st)))
          = blob_range blob (location + buffer_offset) n) as Hcopied.
  { destruct (Z.eq_dec n 0) as [->|Hn0]; [reflexivity|].
    rewrite (window_bytes blob) by (assumption || lia). f_equal. lia. }
  rewrite Hcopied.
  set (h2 := advance n (hfh st)).
  assert (handle_holds blob h2) as Hholds2.
  { apply (holds_move blob (hfh st)); try assumption;
      try (constructor; reflexivity); try reflexivity; unfold h2; cbn; lia. }
  set (st2 := {| hfh := h2;
                 buffer := splice (buffer st) buffer_offset
                             (blob_range blob (location + buffer_offset) n);
                 downloads := downloads st |}).
  assert (Z.of_nat (List.length (blob_range blob (location + buffer_offset) n)) = n)
    as Hlen_copied by (apply blob_range_length; lia).
  assert (List.length (buffer st2) = List.length (buffer st)) as Hlen2.
  { unfold st2. cbn [buffer]. apply splice_length; lia. }
  destruct (Z.gtb_spec (to_read - n) 0) as [_|]; [|lia].
  cbn zeta.
  rewrite (u64_small (fh_length (hfh st) - (file_offset (hfh st) + n))) by lia.
  rewrite MinValue_idx_t_small by lia.
  set (nba := Z.min (buffer_size (fh_read_options (hfh st)))
                (fh_length (hfh st) - (file_offset (hfh st) + n))).
  assert (0 <= nba <= buffer_size (fh_read_options (hfh st)) /\
          file_offset (hfh st) + n + nba <= Z.of_nat (List.length blob)) as Hnba
    by (unfold nba; lia).
  clearbody nba.
  destruct (Z.gtb_spec (to_read - n) nba) as [Hpast|Hrefill].
  - (* the fetch goes past the buffer *)
    unfold bind.
    rewrite (serves_ReadRange blob) by (assumption || lia).
    unfold store, log_download. cbn [buffer hfh downloads st2].
    rewrite mem_write_splice.
    2: lia.
    2:{ rewrite splice_length by lia. rewrite blob_range_length by lia. lia. }
    unfold modify. eexists. split; [reflexivity|].
    cbn [buffer hfh set_hfh]. split; [|split].
    + rewrite (Z.add_assoc location buffer_offset n), splice_blob_ranges by lia.
      do 2 f_equal. lia.
    + apply (holds_move blob h2); try assumption;
        try (constructor; reflexivity); try reflexivity;
        unfold h2; cbn; u64_simpl; lia.
    + unfold h2. cbn. u64_simpl. lia.
  - (* the buffer is filled again and serves the rest *)
    unfold bind at 1.
    rewrite (serves_ReadRange blob) by (assumption || (cbn; lia)).
    set (bs := blob_range blob (file_offset (hfh st) + n) nba).
    assert (Z.of_nat (List.length bs) = nba) as Hbs_len
      by (apply blob_range_length; lia).
    unfold store, log_download. cbn [buffer hfh downloads st2].
    replace (read_buffer h2) with (read_buffer (hfh st)) by reflexivity.
    rewrite mem_write_splice by lia.
    unfold bind at 1, modify. cbn [set_hfh hfh buffer downloads].
    match goal with
    | |- context [Read_loop _ _ _ _ ?s] => set (st3 := s)
    end.
    assert (hfh st3 = refilled bs h2) as Hh3.
    { unfold st3, refilled, set_hfh, h2, advance. rewrite Hbs_len. cbn.
      u64_simpl. reflexivity. }
    assert (handle_holds blob (hfh st3)) as Hholds3.
    { rewrite Hh3. unfold refilled, h2. rewrite Hbs_len.
      constructor; [constructor|..]; cbn; try lia; try assumption.
      - rewrite splice_length by lia. lia.
      - rewrite splice_length by lia. lia.
      - replace (file_offset (hfh st) + n + nba - (file_offset (hfh st) + n))
          with nba by lia.
        rewrite <- Hbs_len at 1. rewrite Nat2Z.id. apply take_splice_0. }
    destruct (Read_loop_from_buffer blob fuel st3 location (to_read - n)
                (buffer_offset + n)) as (st' & Hrun & Hbuffer & Hholds' & Hfo');
      try assumption; try lia;
      try (rewrite Hh3; unfold refilled, h2; cbn; lia).
    + unfold st3. cbn [buffer set_hfh]. rewrite splice_length by lia. lia.
    + exists st'. split; [exact Hrun|]. split; [|split; [exact Hholds' | lia]].
      rewrite Hbuffer. unfold st3. cbn [buffer set_hfh].
      rewrite (Z.add_assoc location buffer_offset n), splice_blob_ranges by lia.
      do 2 f_equal. lia.
Qed.

Lemma ReadRange_to_buffer blob (st : ReadState) (location nr_bytes : Z) :
  serves (blob_client (hfh st)) blob ->
  0 <= nr_bytes -> 0 <= location ->
  location + nr_bytes <= Z.of_nat (List.length blob) ->
  nr_bytes <= Z.of_nat (List.length (buffer st)) ->
  ReadRange location (to_buffer 0) nr_bytes st
  = Ok tt {| hfh := hfh st;
             buffer := splice (buffer st) 0 (blob_range blob location nr_bytes);
             downloads :=
               (downloads st
                ++ [download_of (hfh st) location (to_buffer 0) nr_bytes])%list |}.
Proof.
  intros Hserves Hnr Hloc Hblob Hbuf.
  rewrite (serves_ReadRange blob) by assumption.
  unfold store, log_download. cbn [buffer hfh downloads].
  rewrite mem_write_splice; [reflexivity | lia |].
  rewrite blob_range_length by lia. lia.
Qed.

(** The positional read, from a handle that holds the blob. *)
Lemma Read_holds blob (fuel : nat) (st : ReadState) (nr_bytes location : Z) :
  handle_holds blob (hfh st) ->
  (2 <= fuel)%nat ->
  0 <= nr_bytes -> 0 <= location ->
  location + nr_bytes <= Z.of_nat (List.length blob) ->
  nr_bytes <= Z.of_nat (List.length (buffer st)) ->
  exists st',
    Read nr_bytes location fuel st = Ok tt st' /\
    buffer st' = splice (buffer st) 0 (blob_range blob location nr_bytes) /\
    handle_holds blob (hfh st') /\
    file_offset (hfh st') = location + nr_bytes.
Proof.
  intros Hholds Hfuel Hnr Hloc Hblob Hbuf.
  pose proof (holds_wf _ _ Hholds) as Hwf.
  pose proof Hwf as [Hbs Hlen Hwin Hend Hfits Hidx Hav0 Hcur0 Hoff].
  pose proof Hholds as [_ Hserves Hlength Halloc Hwithin Hwindow].
  pose proof Hserves as (Hsize & _ & _).
  destruct (truthy (Z.land (fh_flags (hfh st)) FILE_FLAGS_DIRECT_IO)
            && (u64 nr_bytes >? 0)) eqn:Hdirect.
  - rewrite Read_direct by assumption.
    rewrite (u64_small nr_bytes) by lia.
    unfold bind. rewrite (ReadRange_to_buffer blob) by assumption.
    unfold modify. eexists. split; [reflexivity|]. cbn [buffer hfh set_hfh].
    split; [reflexivity|]. split.
    + apply (holds_move blob (hfh st)); try assumption;
        try (constructor; reflexivity); try reflexivity; cbn; u64_simpl; lia.
    + cbn. u64_simpl. reflexivity.
  - rewrite Read_buffered by assumption.
    rewrite (u64_small nr_bytes) by lia.
    destruct (positioned_facts (hfh st) location Hwf ltac:(lia))
      as (Hwf1 & Hav1 & Hfo1 & Hcur1 & Hrb1 & Hst1 & Hen1).
    pose proof (positioned_same_file (hfh st) location) as Hsame1.
    destruct Hwf1.
    destruct (Read_loop_holds blob fuel
                (set_hfh (fun h => positioned h location) st) location nr_bytes 0)
      as (st' & Hrun & Hbuffer & Hholds' & Hfo');
      cbn [hfh buffer set_hfh]; try assumption; try lia.
    + apply (holds_move blob (hfh st)); try assumption; lia.
    + exists st'. rewrite Z.add_0_r in *. auto.
Qed.

(** The read at the handle's offset, likewise. *)
Lemma Read_at_offset_holds blob (fuel : nat) (st : ReadState) (nr_bytes : Z) :
  handle_holds blob (hfh st) ->
  (2 <= fuel)%nat ->
  0 <= nr_bytes < 2 ^ 63 ->
  file_offset (hfh st) <= fh_length (hfh st) ->
  Z.min (fh_length (hfh st) - file_offset (hfh st)) nr_bytes
  <= Z.of_nat (List.length (buffer st)) ->
  exists st',
    Read_at_offset nr_bytes fuel st
    = Ok (Z.min (fh_length (hfh st) - file_offset (hfh st)) nr_bytes) st' /\
    handle_holds blob (hfh st').
Proof.
  intros Hholds Hfuel Hnr Hfo Hbuf.
  pose proof (holds_wf _ _ Hholds) as [Hbs Hlen Hwin Hend Hfits Hidx Hav0 Hcur0 Hoff].
  pose proof (holds_length _ _ Hholds) as Hlength.
  unfold Read_at_offset, bind at 1, get.
  rewrite (u64_small (fh_length (hfh st) - file_offset (hfh st))) by lia.
  rewrite MinValue_idx_t_small by lia.
  rewrite s64_small by lia.
  destruct (Read_holds blob fuel st
              (Z.min (fh_length (hfh st) - file_offset (hfh st)) nr_bytes)
              (file_offset (hfh st)))
    as (st' & Hrun & _ & Hholds' & _); try assumption; try lia.
  unfold bind. rewrite Hrun. exists st'. split; [reflexivity | assumption].
Qed.

(** A handle opened for reading holds the blob behind its client. *)
Lemma opened_holds blob path flags lock compression opener (w : Session) h0 w' :
  OpenFile path flags lock compression opener w = Ok h0 w' ->
  Z.land flags FILE_FLAGS_READ <> 0 ->
  0 <= buffer_size (fh_read_options h0) < 2 ^ 64 ->
  serves (blob_client h0) blob ->
  handle_holds blob h0.
Proof.
  intros Hopen Hread Hbs Hserves.
  apply OpenFile_Ok in Hopen as (c & options & w0 & Hnew).
  apply AzureBlobStorageFileHandle_new_Ok in Hnew as (BlobSize & Hprops & ->).
  cbn [blob_client fh_read_options] in *.
  pose proof Hserves as (Hsize & Hprops' & _).
  rewrite Hprops in Hprops'. injection Hprops' as ->.
  assert (truthy (Z.land flags FILE_FLAGS_READ) = true) as ->.
  { unfold truthy. destruct (Z.eqb_spec (Z.land flags FILE_FLAGS_READ) 0);
      [contradiction | reflexivity]. }
  constructor; [constructor|..]; cbn; rewrite ?u64_small by lia;
    rewrite ?repeat_length; try lia; try assumption; reflexivity.
Qed.

Lemma reachable_holds blob h0 h :
  handle_holds blob h0 -> reachable h0 h -> handle_holds blob h.
Proof.
  intros Hholds0.
  induction 1 as [|h location _ IH Hloc
                  |h buf dls nr_bytes location fuel st' _ IH Hnr Hloc Hin Hbuf Hfuel Hrun
                  |h buf dls nr_bytes fuel n st' _ IH Hnr Hfo Hbuf Hfuel Hrun].
  - exact Hholds0.
  - pose proof (holds_wf _ _ IH) as [].
    apply (holds_move blob h); try assumption;
      try (constructor; reflexivity); reflexivity.
  - rewrite (holds_length _ _ IH) in Hin.
    destruct (Read_holds blob fuel {| hfh := h; buffer := buf; downloads := dls |}
                nr_bytes location) as (st'' & Hrun' & _ & Hholds' & _);
      try assumption.
    rewrite Hrun in Hrun'. injection Hrun' as <-. exact Hholds'.
  - destruct (Read_at_offset_holds blob fuel
                {| hfh := h; buffer := buf; downloads := dls |} nr_bytes)
      as (st'' & Hrun' & Hholds'); try assumption.
    rewrite Hrun in Hrun'. injection Hrun' as _ <-. exact Hholds'.
Qed.

(** C1. A handle opened for reading on a blob, after any sequence of
    seeks and reads within the file: for every offset and length within
    the file, [Read] returns, and the caller's buffer after it equals the
    caller's buffer after the single [ReadRange] of that offset and
    length: the requested bytes of the blob at its start. *)
Theorem Read_returns_ReadRange_bytes
    (blob : list Byte.byte)
    (path : string) (flags : Z) (lock : FileLockType)
    (compression : FileCompressionType) (opener : option FileOpener)
    (w : Session) (h0 : AzureBlobStorageFileHandle) (w' : Session)
    (h : AzureBlobStorageFileHandle) (buf : region) (dls : list download)
    (nr_bytes location : Z) (fuel : nat) :
  OpenFile path flags lock compression opener w = Ok h0 w' ->
  Z.land flags FILE_FLAGS_READ <> 0 ->
  0 <= buffer_size (fh_read_options h0) < 2 ^ 64 ->
  serves (blob_client h0) blob ->
  reachable h0 h ->
  0 <= nr_bytes -> 0 <= location ->
  location + nr_bytes <= Z.of_nat (List.length blob) ->
  nr_bytes <= Z.of_nat (List.length buf) ->
  (2 <= fuel)%nat ->
  let st := {| hfh := h; buffer := buf; downloads := dls |} in
  exists st1 st2,
    Read nr_bytes location fuel st = Ok tt st1 /\
    ReadRange location (to_buffer 0) nr_bytes st = Ok tt st2 /\
    buffer st1 = buffer st2 /\
    buffer st1 = splice buf 0 (blob_range blob location nr_bytes).
Proof.
  intros Hopen Hread Hbs Hserves Hreach Hnr Hloc Hblob Hbuf Hfuel st.
  assert (handle_holds blob h) as Hholds.
  { apply (reachable_holds blob h0); [|exact Hreach].
    exact (opened_holds blob _ _ _ _ _ _ _ _ Hopen Hread Hbs Hserves). }
  destruct (Read_holds blob fuel st nr_bytes location)
    as (st1 & Hrun & Hbuffer & _ & _); try assumption.
  exists st1. eexists. split; [exact Hrun|]. split.
  - apply (ReadRange_to_buffer blob); try assumption.
    exact (holds_serves _ _ Hholds).
  - split; exact Hbuffer.
Qed.

End Properties.

(** * Further properties of the code *)

Section Further.
Context `{host : HostEnv} `{sdk : AzureSdk} `{repo : !RepoDecls}.

Ltac u64_small_all :=
  repeat match goal with
         | |- context [u64 ?z] => rewrite (u64_small z) by lia
         end.

(** ** Existence checks without an opener *)

(** X1. [FileExists] hands [OpenFile] no opener of its own: where the
    default opener of [OpenFile] is the null opener, [CreateHandle] throws
    and the existence check answers [false] for every file name, the
    session being left as it was. *)
Theorem FileExists_false_without_default_opener (filename : string) (w : Session) :
  OpenFile_default_opener = None ->
  FileExists filename w = Ok false w.
Proof.
  intros Hnull. unfold FileExists, try_catch_all, OpenFile.
  unfold bind at 2. unfold D_ASSERT.
  destruct (DEBUG && negb (FileCompressionType_eqb OpenFile_default_compression
                             UNCOMPRESSED)); [reflexivity|].
  unfold ret at 3. cbv beta iota.
  destruct (truthy (Z.land FILE_FLAGS_READ FILE_FLAGS_WRITE)); [reflexivity|].
  unfold bind, CreateHandle. rewrite Hnull. reflexivity.
Qed.

(** ** What opening returns *)

(** X2. When [OpenFile] returns a handle, the flags hold no write bit and
    an opener was given; the handle carries the path and the flags, its
    length is the size that [GetProperties] returned for its blob, it
    stands at offset 0 with an empty buffer window; and opening sent
    exactly one request, that [GetProperties]. *)
Theorem OpenFile_returns
    (path : string) (flags : Z) (lock : FileLockType)
    (compression : FileCompressionType) (opener : option FileOpener)
    (w : Session) (handle : AzureBlobStorageFileHandle) (w' : Session) :
  OpenFile path flags lock compression opener w = Ok handle w' ->
  Z.land flags FILE_FLAGS_WRITE = 0 /\
  opener <> None /\
  (exists BlobSize,
      GetProperties (blob_client handle) = Returns BlobSize /\
      fh_length handle = u64 BlobSize) /\
  fh_path handle = path /\
  fh_flags handle = flags /\
  file_offset handle = 0 /\
  buffer_available handle = 0 /\
  buffer_start handle = 0 /\
  buffer_end handle = 0 /\
  requests w' = (requests w ++ [ReqGetProperties (blob_client handle)])%list.
Proof.
  unfold OpenFile. unfold bind at 1.
  destruct (D_ASSERT _ w) as [[] w1|e w1| |] eqn:Hassert; try discriminate.
  assert (w1 = w) as ->.
  { unfold D_ASSERT in Hassert. destruct (_ && _); [discriminate|].
    injection Hassert as <-. reflexivity. }
  unfold truthy.
  destruct (Z.eqb_spec (Z.land flags FILE_FLAGS_WRITE) 0) as [Hw|Hw];
    cbn [negb]; [|discriminate].
  unfold bind at 1.
  destruct (CreateHandle path flags lock compression opener w)
    as [h1 w2|e w2| |] eqn:Hcreate; try discriminate.
  intros [= <- <-].
  unfold CreateHandle in Hcreate. destruct opener as [o|]; [|discriminate].
  unfold bind at 1 in Hcreate. rewrite Hassert in Hcreate.
  unfold bind at 1 in Hcreate. unfold call in Hcreate.
  destruct (ParseUrl path) as [url|e]; [|discriminate].
  unfold ret at 1 in Hcreate.
  unfold bind at 1 in Hcreate.
  pose proof (GetOrCreateStorageContext_requests (Some o) path url w) as Hreq.
  destruct (GetOrCreateStorageContext (Some o) path url w)
    as [p w5|e w5| |]; try discriminate.
  unfold bind at 1, deref in Hcreate.
  destruct (objects w5 !! p) as [context|]; [|discriminate].
  pose proof Hcreate as Hnew.
  apply AzureBlobStorageFileHandle_new_Ok in Hnew as (BlobSize & Hprops & ->).
  cbn [blob_client fh_length fh_path fh_flags file_offset buffer_available
       buffer_start buffer_end].
  split; [exact Hw|]. split; [discriminate|].
  split; [exists BlobSize; auto|].
  repeat (split; [reflexivity|]).
  unfold AzureBlobStorageFileHandle_new, bind, GetProperties_or_IOException in Hcreate.
  rewrite Hprops in Hcreate.
  apply (f_equal (fun r => match r with
                           | Ok _ s | Throw _ s => requests s
                           | _ => []
                           end)) in Hcreate.
  destruct (truthy (Z.land flags FILE_FLAGS_READ)); cbn in Hcreate;
    rewrite <- Hcreate, Hreq; reflexivity.
Qed.

(** X3. [GetFileSize] is the blob size read when the handle was opened,
    and stays so after any seeks and reads, returning or throwing. *)
Theorem GetFileSize_is_blob_size
    (path : string) (flags : Z) (lock : FileLockType)
    (compression : FileCompressionType) (opener : option FileOpener)
    (w : Session) (handle : AzureBlobStorageFileHandle) (w' : Session)
    (BlobSize : Z) :
  OpenFile path flags lock compression opener w = Ok handle w' ->
  GetProperties (blob_client handle) = Returns BlobSize ->
  0 <= BlobSize < 2 ^ 63 ->
  forall handle', used handle handle' -> GetFileSize handle' = BlobSize.
Proof.
  intros Hopen Hprops Hsize handle' Hused.
  apply OpenFile_Ok in Hopen as (c & options & w0 & Hnew).
  apply AzureBlobStorageFileHandle_new_Ok in Hnew as (BlobSize' & Hprops' & ->).
  cbn [blob_client] in Hprops. rewrite Hprops in Hprops'. injection Hprops' as <-.
  apply used_same_file in Hused. unfold GetFileSize.
  rewrite (same_length _ _ Hused). cbn [fh_length].
  rewrite u64_small by lia. apply s64_small. lia.
Qed.

(** ** The constructor's failures *)


(** ** Reads served by the buffer, by a refill, and direct reads *)

Lemma Read_loop_from_buffer_eq (fuel : nat) (st : ReadState)
    (location to_read buffer_offset : Z) :
  handle_wf (hfh st) ->
  (1 <= fuel)%nat ->
  0 <= location -> 0 <= buffer_offset ->
  0 <= to_read <= buffer_available (hfh st) ->
  (to_read = 0 \/
   file_offset (hfh st) = buffer_start (hfh st) + buffer_idx (hfh st)) ->
  buffer_offset + to_read <= Z.of_nat (List.length (buffer st)) ->
  location + buffer_offset + to_read < 2 ^ 64 ->
  Read_loop fuel location to_read buffer_offset st
  = Ok tt {| hfh := advance to_read (hfh st);
             buffer := splice (buffer st) buffer_offset
                         (take (Z.to_nat to_read)
                            (drop (Z.to_nat (buffer_idx (hfh st)))
                               (read_buffer (hfh st))));
             downloads := downloads st |}.
Proof.
  intros Hwf Hfuel Hloc Hbo Htr Hcur Hbuf Hsum.
  destruct (Z.eq_dec to_read 0) as [->|Hpos].
  { rewrite Read_loop_0 by lia. cbn [Z.to_nat take].
    rewrite advance_0, splice_nil. destruct st; reflexivity. }
  destruct fuel as [|fuel]; [lia|].
  rewrite Read_loop_step by (assumption || lia).
  replace (Z.min (buffer_available (hfh st)) to_read) with to_read by lia.
  rewrite Z.sub_diag. reflexivity.
Qed.

(** X5. A buffered read that lies within what the window still holds
    from [location] on is served from the read-ahead buffer: no download
    is requested, the buffer and its window stay as they are, and the
    handle ends right after the bytes read. *)
Theorem Read_from_window (st : ReadState) (nr_bytes location : Z) (fuel : nat) :
  handle_wf (hfh st) ->
  truthy (Z.land (fh_flags (hfh st)) FILE_FLAGS_DIRECT_IO) = false ->
  0 <= location ->
  0 < nr_bytes <= window_available (hfh st) location ->
  nr_bytes <= Z.of_nat (List.length (buffer st)) ->
  (1 <= fuel)%nat ->
  exists st',
    Read nr_bytes location fuel st = Ok tt st' /\
    downloads st' = downloads st /\
    buffer st'
    = splice (buffer st) 0
        (take (Z.to_nat nr_bytes)
           (drop (Z.to_nat (location - buffer_start (hfh st))) (read_buffer (hfh st)))) /\
    read_buffer (hfh st') = read_buffer (hfh st) /\
    buffer_start (hfh st') = buffer_start (hfh st) /\
    buffer_end (hfh st') = buffer_end (hfh st) /\
    file_offset (hfh st') = location + nr_bytes /\
    buffer_available (hfh st') = buffer_end (hfh st) - (location + nr_bytes).
Proof.
  intros Hwf Hflags Hloc Hnr Hbuf Hfuel.
  pose proof Hwf as [Hbs Hlen Hwin Hend Hfits Hidx Hav Hcur Hoff].
  assert (buffer_start (hfh st) <= location < buffer_end (hfh st) /\
          window_available (hfh st) location = buffer_end (hfh st) - location)
    as (Hin & Hwa).
  { unfold window_available in *.
    destruct (Z.geb_spec location (buffer_start (hfh st)));
      destruct (Z.ltb_spec location (buffer_end (hfh st))); cbn [andb] in *; lia. }
  destruct (positioned_facts (hfh st) location Hwf ltac:(lia))
    as (Hwf1 & Hav1 & Hfo1 & Hcur1 & Hrb1 & Hst1 & Hen1).
  assert (buffer_idx (positioned (hfh st) location) = location - buffer_start (hfh st))
    as Hidx1.
  { destruct Hwf1. lia. }
  rewrite Read_buffered by (rewrite Hflags; reflexivity).
  rewrite (u64_small nr_bytes) by lia.
  rewrite Read_loop_from_buffer_eq; cbn [hfh buffer downloads set_hfh];
    try assumption; try lia.
  eexists. split; [reflexivity|]. cbn [hfh buffer downloads].
  rewrite Hidx1, Hrb1. cbn. rewrite Hfo1, Hav1, Hwa.
  repeat split; try assumption; lia.
Qed.

(** X6. A buffered read outside the window, of no more bytes than fit
    the buffer and remain in the file, refills the buffer with one
    download of [min (buffer_size, length - location)] bytes at
    [location]; the window then starts at [location] and holds those
    bytes of the blob, and the caller receives the bytes asked for. *)
Theorem Read_refills_buffer blob (st : ReadState) (nr_bytes location : Z) (fuel : nat) :
  handle_holds blob (hfh st) ->
  truthy (Z.land (fh_flags (hfh st)) FILE_FLAGS_DIRECT_IO) = false ->
  0 <= location ->
  window_available (hfh st) location = 0 ->
  let fetched :=
    Z.min (buffer_size (fh_read_options (hfh st)))
      (Z.of_nat (List.length blob) - location) in
  0 < nr_bytes <= fetched ->
  nr_bytes <= Z.of_nat (List.length (buffer st)) ->
  (2 <= fuel)%nat ->
  exists st',
    Read nr_bytes location fuel st = Ok tt st' /\
    downloads st'
    = (downloads st ++ [download_of (hfh st) location to_read_buffer fetched])%list /\
    buffer st' = splice (buffer st) 0 (blob_range blob location nr_bytes) /\
    buffer_start (hfh st') = location /\
    buffer_end (hfh st') = location + fetched /\
    take (Z.to_nat fetched) (read_buffer (hfh st')) = blob_range blob location fetched /\
    file_offset (hfh st') = location + nr_bytes /\
    buffer_available (hfh st') = fetched - nr_bytes.
Proof.
  intros Hholds Hflags Hloc Hmiss nba Hnr Hbuf Hfuel.
  pose proof (holds_wf _ _ Hholds) as Hwf.
  pose proof Hwf as [Hbs Hlen Hwin Hend Hfits Hidx Hav0 Hcur0 Hoff].
  pose proof Hholds as [_ Hserves Hlength Halloc Hwithin Hwindow].
  pose proof Hserves as (Hsize & _ & _).
  destruct (positioned_facts (hfh st) location Hwf ltac:(unfold nba in *; lia))
    as (Hwf1 & Hav1 & Hfo1 & Hcur1 & Hrb1 & Hst1 & Hen1).
  pose proof (positioned_same_file (hfh st) location) as Hsame1.
  assert (0 < nr_bytes <= nba /\ nba <= buffer_size (fh_read_options (hfh st)) /\
          location + nba <= Z.of_nat (List.length blob) /\
          nba = Z.min (buffer_size (fh_read_options (hfh st)))
                  (fh_length (hfh st) - location)) as Hnba
    by (unfold nba in *; lia).
  clearbody nba.
  destruct fuel as [|fuel]; [lia|].
  rewrite Read_buffered by (rewrite Hflags; reflexivity).
  rewrite (u64_small nr_bytes) by lia.
  rewrite Read_loop_step; cbn [hfh buffer downloads set_hfh]; try assumption; try lia.
  rewrite Hav1, Hmiss, Hfo1, (same_read_options _ _ Hsame1), (same_length _ _ Hsame1).
  replace (Z.min 0 nr_bytes) with 0 by lia.
  rewrite Z.sub_0_r, !Z.add_0_r. cbn [Z.to_nat take]. rewrite splice_nil, advance_0.
  destruct (Z.gtb_spec nr_bytes 0) as [_|]; [|lia].
  cbn zeta.
  rewrite (u64_small (fh_length (hfh st) - location)) by lia.
  rewrite MinValue_idx_t_small by lia.
  replace (Z.min (buffer_size (fh_read_options (hfh st)))
             (fh_length (hfh st) - location)) with nba by lia.
  destruct (Z.gtb_spec nr_bytes nba) as [|_]; [lia|].
  unfold bind at 1.
  rewrite (serves_ReadRange blob);
    cbn [hfh]; rewrite ?(same_blob_client _ _ Hsame1); try assumption; try lia.
  rewrite (download_of_same _ _ _ _ _ Hsame1).
  set (bs := blob_range blob location nba).
  assert (Z.of_nat (List.length bs) = nba) as Hbs_len
    by (apply blob_range_length; lia).
  unfold store, log_download. cbn [buffer hfh downloads].
  rewrite Hrb1. rewrite mem_write_splice by lia.
  unfold bind at 1, modify. cbn [set_hfh hfh buffer downloads].
  match goal with
  | |- context [Read_loop _ _ _ _ ?s] => set (st3 := s)
  end.
  assert (hfh st3 = refilled bs (positioned (hfh st) location)) as Hh3.
  { unfold st3, refilled. cbn [hfh set_hfh]. rewrite Hbs_len, Hrb1.
    cbn. rewrite Hfo1. u64_small_all. reflexivity. }
  assert (handle_wf (hfh st3) /\ buffer_available (hfh st3) = nba /\
          buffer_idx (hfh st3) = 0 /\ file_offset (hfh st3) = location /\
          buffer_start (hfh st3) = location /\ buffer_end (hfh st3) = location + nba /\
          read_buffer (hfh st3) = splice (read_buffer (hfh st)) 0 bs)
    as (Hwf3 & Hav3 & Hidx3 & Hfo3 & Hst3 & Hen3 & Hrb3).
  { rewrite Hh3. unfold refilled. rewrite Hbs_len, Hrb1. cbn. rewrite Hfo1.
    split; [|repeat split; reflexivity].
    destruct Hwf1. constructor; cbn; rewrite ?Hfo1;
      rewrite ?(same_read_options _ _ Hsame1), ?(same_length _ _ Hsame1);
      rewrite ?splice_length by lia; try lia. }
  assert (buffer st3 = buffer st) as Hbuf3 by reflexivity.
  assert (downloads st3
          = (downloads st ++ [download_of (hfh st) location to_read_buffer nba])%list)
    as Hdl3 by reflexivity.
  clearbody st3.
  rewrite Read_loop_from_buffer_eq; try assumption; try lia;
    try (rewrite Hbuf3; lia).
  eexists. split; [reflexivity|].
  cbn [hfh buffer downloads advance set_file_offset set_buffer_available set_buffer_idx
       read_buffer buffer_start buffer_end file_offset buffer_available].
  rewrite Hidx3, Hrb3, Hbuf3, Hdl3, Hst3, Hen3, Hfo3, Hav3. cbn [Z.to_nat drop].
  split; [reflexivity|]. split.
  { f_equal. transitivity (take (Z.to_nat nr_bytes) bs).
    - rewrite <- (take_splice_0 (read_buffer (hfh st)) bs) at 2.
      rewrite take_take. f_equal. lia.
    - apply blob_range_take. lia. }
  repeat split; try lia.
  rewrite <- Hbs_len, Nat2Z.id. apply take_splice_0.
Qed.


(** ** Sequential reads and seeks *)

(** X8. The read at the handle's offset never reads past the end of the
    file: it returns [min (length - file_offset, nr_bytes)], delivers
    that many bytes of the blob from the offset on, and moves the offset
    by as much; at the end of the file it returns 0. *)
Theorem Read_at_offset_streams blob (st : ReadState) (nr_bytes : Z) (fuel : nat) :
  handle_holds blob (hfh st) ->
  (2 <= fuel)%nat ->
  0 <= nr_bytes < 2 ^ 63 ->
  file_offset (hfh st) <= Z.of_nat (List.length blob) ->
  let n := Z.min (Z.of_nat (List.length blob) - file_offset (hfh st)) nr_bytes in
  n <= Z.of_nat (List.length (buffer st)) ->
  exists st',
    Read_at_offset nr_bytes fuel st = Ok n st' /\
    buffer st' = splice (buffer st) 0 (blob_range blob (file_offset (hfh st)) n) /\
    file_offset (hfh st') = file_offset (hfh st) + n /\
    handle_holds blob (hfh st').
Proof.
  intros Hholds Hfuel Hnr Hfo n Hbuf.
  pose proof (holds_wf _ _ Hholds) as [Hbs Hlen Hwin Hend Hfits Hidx Hav0 Hcur0 Hoff].
  pose proof (holds_length _ _ Hholds) as Hlength.
  unfold Read_at_offset, bind at 1, get.
  rewrite (u64_small (fh_length (hfh st) - file_offset (hfh st))) by lia.
  rewrite MinValue_idx_t_small by lia.
  rewrite s64_small by lia.
  rewrite Hlength. fold n.
  destruct (Read_holds blob fuel st n (file_offset (hfh st)))
    as (st' & Hrun & Hbuffer & Hholds' & Hfo'); try assumption; try (unfold n; lia).
  unfold bind. rewrite Hrun. exists st'. auto.
Qed.

(** A positional read that returns does not depend on where the handle
    stands. *)
Lemma Read_ignores_offset (nr_bytes location : Z) (fuel : nat) (st : ReadState)
    (offset : Z) (st' : ReadState) :
  Read nr_bytes location fuel st = Ok tt st' ->
  Read nr_bytes location fuel (set_hfh (fun h => Seek h offset) st) = Ok tt st'.
Proof.
  intros H.
  destruct (truthy (Z.land (fh_flags (hfh st)) FILE_FLAGS_DIRECT_IO)
            && (u64 nr_bytes >? 0)) eqn:Hdirect.
  - rewrite Read_direct in H by assumption.
    rewrite Read_direct by exact Hdirect.
    unfold bind in *. rewrite ReadRange_eq in *. cbn zeta in *.
    change (download_of (hfh (set_hfh (fun h => Seek h offset) st)))
      with (download_of (hfh st)).
    change (blob_client (hfh (set_hfh (fun h => Seek h offset) st)))
      with (blob_client (hfh st)).
    destruct (DownloadTo _ _ _) as [bs|e].
    + unfold store, log_download in *. cbn [buffer hfh downloads set_hfh] in *.
      destruct (mem_write (buffer st) 0 bs); [|discriminate]. exact H.
    + destruct e; discriminate.
  - rewrite Read_buffered in H by assumption.
    rewrite Read_buffered by exact Hdirect.
    rewrite <- H. reflexivity.
Qed.

(** X9. [Seek] followed by the read at the handle's offset is the
    positional read at that location of the clamped length: whenever the
    latter returns, the former returns the clamped length and ends in
    the same state. *)
Theorem Seek_then_Read_at_offset (nr_bytes location : Z) (fuel : nat)
    (st st' : ReadState) :
  let n := s64 (MinValue_idx_t (u64 (fh_length (hfh st) - location)) nr_bytes) in
  Read n location fuel st = Ok tt st' ->
  Read_at_offset nr_bytes fuel (set_hfh (fun h => Seek h location) st) = Ok n st'.
Proof.
  intros n H. unfold Read_at_offset, bind at 1, get.
  change (fh_length (hfh (set_hfh (fun h => Seek h location) st)))
    with (fh_length (hfh st)).
  change (file_offset (hfh (set_hfh (fun h => Seek h location) st))) with location.
  fold n. unfold bind. rewrite (Read_ignores_offset _ _ _ _ _ _ H). reflexivity.
Qed.

(** ** The invariant of the read-ahead buffer *)

(** X10. The invariant of the read-ahead buffer.  For a handle opened for
    reading, after any seeks and reads within the file: the window lies
    within the file, is no longer than the buffer, the cursor and the
    bytes left after it lie within the window, and the buffer holds
    the bytes of the blob that the window stands for. *)
Theorem buffer_window_holds_blob
    (blob : list Byte.byte)
    (path : string) (flags : Z) (lock : FileLockType)
    (compression : FileCompressionType) (opener : option FileOpener)
    (w : Session) (h0 : AzureBlobStorageFileHandle) (w' : Session)
    (h : AzureBlobStorageFileHandle) :
  OpenFile path flags lock compression opener w = Ok h0 w' ->
  Z.land flags FILE_FLAGS_READ <> 0 ->
  0 <= buffer_size (fh_read_options h0) < 2 ^ 64 ->
  serves (blob_client h0) blob ->
  reachable h0 h ->
  0 <= buffer_start h <= buffer_end h /\
  buffer_end h <= Z.of_nat (List.length blob) /\
  buffer_end h - buffer_start h <= buffer_size (fh_read_options h0) /\
  0 <= buffer_idx h /\ 0 <= buffer_available h /\
  buffer_idx h + buffer_available h <= buffer_end h - buffer_start h /\
  take (Z.to_nat (buffer_end h - buffer_start h)) (read_buffer h)
  = blob_range blob (buffer_start h) (buffer_end h - buffer_start h).
Proof.
  intros Hopen Hread Hbs Hserves Hreach.
  pose proof (opened_holds blob _ _ _ _ _ _ _ _ Hopen Hread Hbs Hserves) as Hholds0.
  pose proof (reachable_holds blob h0 h Hholds0 Hreach)
    as [[] _ _ Halloc Hwithin Hwindow].
  assert (same_file h0 h) as Hsame.
  { clear - Hreach. induction Hreach as [|h location _ IH _
      |h buf dls nr_bytes location fuel st' _ IH _ _ _ _ _ Hrun
      |h buf dls nr_bytes fuel n st' _ IH _ _ _ _ Hrun].
    - apply same_file_refl.
    - apply (same_file_trans _ _ _ IH). constructor; reflexivity.
    - apply (same_file_trans _ _ _ IH).
      pose proof (keeps_Read nr_bytes location fuel
                    {| hfh := h; buffer := buf; downloads := dls |}) as K.
      rewrite Hrun in K. exact K.
    - apply (same_file_trans _ _ _ IH).
      pose proof (keeps_Read_at_offset nr_bytes fuel
                    {| hfh := h; buffer := buf; downloads := dls |}) as K.
      rewrite Hrun in K. exact K. }
  rewrite <- (same_read_options _ _ Hsame).
  repeat split; try assumption; lia.
Qed.

(** ** Exceptions that come out of a read *)

Lemma no_StorageException_bind {S A B} (m : M S A) (k : A -> M S B) :
  no_StorageException m -> (forall a, no_StorageException (k a)) ->
  no_StorageException (bind m k).
Proof.
  intros Hm Hk s e s'. unfold bind.
  destruct (m s) as [a s1|e1 s1| |] eqn:E; try discriminate.
  - apply Hk.
  - intros [= <- <-]. exact (Hm _ _ _ E).
Qed.

Lemma no_StorageException_ret {S A} (a : A) : no_StorageException (@ret S A a).
Proof. intros s e s'. discriminate. Qed.

Lemma no_StorageException_modify {S} (f : S -> S) : no_StorageException (modify f).
Proof. intros s e s'. discriminate. Qed.

Lemma no_StorageException_get {S} : no_StorageException (@get S).
Proof. intros s e s'. discriminate. Qed.

Lemma no_StorageException_D_ASSERT {S} (cond : bool) :
  no_StorageException (@D_ASSERT host S cond).
Proof.
  intros s e s'. unfold D_ASSERT. destruct (_ && _); [|discriminate].
  intros [= <- _]. reflexivity.
Qed.

Lemma no_StorageException_store dst bs : no_StorageException (store dst bs).
Proof.
  intros s e s'. unfold store. destruct dst.
  - destruct (mem_write _ _ _); discriminate.
  - destruct (mem_write _ _ _); discriminate.
Qed.

Lemma no_StorageException_throw {S A} (e : exception) :
  is_StorageException e = false -> no_StorageException (@throw S A e).
Proof. intros He s e' s'. intros [= <- _]. exact He. Qed.

Lemma no_StorageException_ReadRange file_offset dst len :
  no_StorageException (ReadRange file_offset dst len).
Proof.
  unfold ReadRange.
  apply no_StorageException_bind; [apply no_StorageException_get|]. intros st.
  apply no_StorageException_bind; [apply no_StorageException_modify|]. intros _.
  destruct (DownloadTo _ _ _) as [bs|e]; [apply no_StorageException_store|].
  destruct e; apply no_StorageException_throw; reflexivity.
Qed.

Lemma no_StorageException_Read_from_buffer to_read buffer_offset :
  no_StorageException (Read_from_buffer to_read buffer_offset).
Proof.
  unfold Read_from_buffer.
  apply no_StorageException_bind; [apply no_StorageException_get|]. intros st.
  destruct (_ >? 0); [|apply no_StorageException_ret].
  apply no_StorageException_bind; [apply no_StorageException_D_ASSERT|]. intros _.
  apply no_StorageException_bind.
  { intros s e s'. unfold memcpy_from_read_buffer.
    destruct (mem_read _ _ _); [apply no_StorageException_store | discriminate]. }
  intros _.
  apply no_StorageException_bind; [apply no_StorageException_modify|]. intros _.
  apply no_StorageException_ret.
Qed.

Lemma no_StorageException_Read_loop fuel location to_read buffer_offset :
  no_StorageException (Read_loop fuel location to_read buffer_offset).
Proof.
  revert to_read buffer_offset.
  induction fuel as [|fuel IH]; intros to_read buffer_offset; simpl.
  - destruct (to_read >? 0); [intros s e s'; discriminate | apply no_StorageException_ret].
  - destruct (to_read >? 0); [|apply no_StorageException_ret].
    apply no_StorageException_bind; [apply no_StorageException_Read_from_buffer|].
    intros locals.
    apply no_StorageException_bind; [apply no_StorageException_get|]. intros st.
    destruct (_ && _); [|apply IH].
    destruct (_ >? _).
    + apply no_StorageException_bind; [apply no_StorageException_ReadRange|].
      intros _. apply no_StorageException_modify.
    + apply no_StorageException_bind; [apply no_StorageException_ReadRange|].
      intros _.
      apply no_StorageException_bind; [apply no_StorageException_modify|].
      intros _. apply IH.
Qed.

Lemma no_StorageException_Read nr_bytes location fuel :
  no_StorageException (Read nr_bytes location fuel).
Proof.
  unfold Read.
  apply no_StorageException_bind; [apply no_StorageException_get|]. intros st.
  destruct (_ && _).
  - apply no_StorageException_bind; [apply no_StorageException_ReadRange|].
    intros _. apply no_StorageException_modify.
  - apply no_StorageException_bind; [|intros _; apply no_StorageException_Read_loop].
    destruct (_ && _); apply no_StorageException_modify.
Qed.

(** X11. No [StorageException] comes out of a read: whatever [Read],
    the read at the handle's offset or [ReadRange] throws, it is not a
    [StorageException] (the one of the SDK is rethrown as an
    [IOException]). *)
Theorem Read_throws_no_StorageException
    (nr_bytes location : Z) (fuel : nat) (st : ReadState)
    (e : exception) (st' : ReadState) :
  Read nr_bytes location fuel st = Throw e st' \/
  Read_at_offset nr_bytes fuel st = Throw e st' \/
  (exists dst, ReadRange location dst nr_bytes st = Throw e st') ->
  is_StorageException e = false.
Proof.
  intros [H|[H|[dst H]]].
  - exact (no_StorageException_Read _ _ _ _ _ _ H).
  - assert (no_StorageException (Read_at_offset nr_bytes fuel)) as Hno.
    { unfold Read_at_offset.
      apply no_StorageException_bind; [apply no_StorageException_get|]. intros st0.
      apply no_StorageException_bind; [apply no_StorageException_Read|].
      intros _. apply no_StorageException_ret. }
    exact (Hno _ _ _ H).
  - exact (no_StorageException_ReadRange _ _ _ _ _ _ H).
Qed.

(** ** Listing *)

Lemma filter_page_eq (path_result_prefix : string) (pattern_splits blobs result : list string) :
  filter_page path_result_prefix pattern_splits blobs result
  = (result ++ matching_urls path_result_prefix pattern_splits blobs)%list.
Proof.
  unfold filter_page, matching_urls. revert result.
  induction blobs as [|key blobs IH]; intros result; simpl.
  - symmetry. apply app_nil_r.
  - rewrite IH. destruct (Match _ _); simpl; [|reflexivity].
    rewrite <- app_assoc. reflexivity.
Qed.

Lemma matching_urls_app (path_result_prefix : string) (pattern_splits a b : list string) :
  matching_urls path_result_prefix pattern_splits (a ++ b)
  = (matching_urls path_result_prefix pattern_splits a
     ++ matching_urls path_result_prefix pattern_splits b)%list.
Proof.
  unfold matching_urls. rewrite List.filter_app, map_app. reflexivity.
Qed.

Lemma Glob_pages_lists (fuel : nat) (path : string) (c : BlobContainerClient)
    (path_result_prefix : string) (pattern_splits : list string)
    (options : ListBlobsOptions) (pages : list ListBlobsPagedResponse)
    (result : list string) (w : Session) :
  pages_from c options pages ->
  (List.length pages <= fuel)%nat ->
  Glob_pages fuel path c path_result_prefix pattern_splits options result w
  = Ok (result
        ++ matching_urls path_result_prefix pattern_splits (concat (map Blobs pages)))%list
       {| objects := objects w;
          registered_state := registered_state w;
          requests :=
            (requests w ++ map (ReqListBlobs c) (listing_options options pages))%list |}.
Proof.
  intros Hpages. revert fuel result w.
  induction Hpages as [options res Hres Hlast
                      |options res token pages Hres Hnext _ IH];
    intros fuel result w Hfuel; (destruct fuel as [|fuel]; [simpl in Hfuel; lia|]);
    cbn [Glob_pages]; unfold bind, ListBlobs_or_IOException; rewrite Hres.
  - rewrite Hlast, filter_page_eq. cbn [map concat listing_options].
    rewrite Hlast, app_nil_r. reflexivity.
  - rewrite Hnext, IH by (simpl in Hfuel; lia).
    cbn [map concat listing_options objects registered_state requests log_request].
    rewrite Hnext, filter_page_eq, matching_urls_app, <- !app_assoc. reflexivity.
Qed.

Lemma find_first_of_Some (s chars : string) (pos : nat) :
  find_first_of s chars = Some pos ->
  String.prefix (substring 0 pos s) s = true /\
  find_first_of (substring 0 pos s) chars = None /\
  exists c, String.get pos s = Some c /\ mem_char c chars = true.
Proof.
  revert pos. induction s as [|d s IH]; intros pos; simpl; [discriminate|].
  destruct (mem_char d chars) eqn:E.
  - intros [= <-]. simpl. split; [reflexivity|]. split; [reflexivity|]. eauto.
  - destruct (find_first_of s chars) as [n|]; [|discriminate]. simpl.
    intros [= <-]. destruct (IH n eq_refl) as (Hp & Hn & c & Hc & Hm).
    simpl. rewrite E, Hn.
    destruct (Ascii.ascii_dec d d) as [_|]; [|congruence].
    split; [exact Hp|]. split; [reflexivity|]. eauto.
Qed.

(** X12. [Glob] on a key with a wildcard lists with the prefix up to the
    first wildcard (a prefix of the key that holds no wildcard), follows
    the continuation tokens from page to page until a page has none, and
    returns, in listing order, the URL of every listed blob whose name
    matches the pattern segment by segment; the requests sent are
    exactly these listings. *)
Theorem Glob_returns_matching_blobs
    (path : string) (opener : option FileOpener) (fuel : nat) (w : Session)
    (azure_url : AzureParsedUrl) (storage_context : nat) (w1 : Session)
    (context : AzureBlobContextState) (first_wildcard_pos : nat)
    (pages : list ListBlobsPagedResponse) :
  opener <> None ->
  ParseUrl path = Returns azure_url ->
  GetOrCreateStorageContext opener path azure_url w = Ok storage_context w1 ->
  objects w1 !! storage_context = Some context ->
  find_first_of (url_path azure_url) wildcard_chars = Some first_wildcard_pos ->
  let shared_path := substring 0 first_wildcard_pos (url_path azure_url) in
  let container_client := GetBlobContainerClient context (container azure_url) in
  let options := {| Prefix := Some shared_path; ContinuationToken := None |} in
  pages_from container_client options pages ->
  (List.length pages <= fuel)%nat ->
  String.prefix shared_path (url_path azure_url) = true /\
  find_first_of shared_path wildcard_chars = None /\
  exists w',
    Glob path opener fuel w
    = Ok (matching_urls (result_prefix azure_url)
            (StringUtil_Split (url_path azure_url) "/")
            (concat (map Blobs pages))) w' /\
    requests w'
    = (requests w
       ++ map (ReqListBlobs container_client) (listing_options options pages))%list.
Proof.
  intros Hopener Hurl Hctx Hobj Hfind shared_path container_client options Hpages Hfuel.
  destruct (find_first_of_Some _ _ _ Hfind) as (Hprefix & Hfree & _).
  split; [exact Hprefix|]. split; [exact Hfree|].
  destruct opener as [o|]; [|contradiction].
  unfold Glob, bind. rewrite Hurl. simpl. rewrite Hctx, Hfind.
  unfold deref. rewrite Hobj.
  fold shared_path. fold container_client. fold options.
  change (if is_fully_qualified azure_url
          then url_prefix azure_url ++ storage_account_name azure_url ++ "."
               ++ endpoint azure_url ++ "/" ++ container azure_url
          else url_prefix azure_url ++ container azure_url)
    with (result_prefix azure_url).
  rewrite (Glob_pages_lists _ _ _ _ _ _ pages) by assumption.
  eexists. split; [reflexivity|]. simpl.
  pose proof (GetOrCreateStorageContext_requests (Some o) path azure_url w) as Hreq.
  rewrite Hctx in Hreq. rewrite Hreq. reflexivity.
Qed.

(** ** Patterns without a recursive wildcard *)

(** X13. A pattern without a [**] segment matches exactly the keys with
    as many segments as the pattern, each segment matching its pattern
    segment as a glob. *)
Theorem Match_without_globstar (key pattern : list string) :
  (forall p, In p pattern -> p <> "**") ->
  Match key pattern = true <->
  Forall2 (fun k p => LikeFun_Glob k p = true) key pattern.
Proof.
  revert key. induction pattern as [|p pattern IH]; intros key Hno.
  - destruct key; simpl; split; try discriminate; try constructor.
    intros H. inversion H.
  - destruct key as [|k key].
    + simpl. split; [discriminate | intros H; inversion H].
    + rewrite Match_cons.
      destruct (String.eqb_spec p "**") as [E|_].
      { exfalso. apply (Hno p); [left; reflexivity | exact E]. }
      destruct (LikeFun_Glob k p) eqn:G; simpl.
      * rewrite IH by (intros q Hq; apply Hno; right; exact Hq).
        split; [intros H; constructor; assumption | intros H; inversion H; assumption].
      * split; [discriminate|]. intros H. inversion H. congruence.
Qed.

(** ** The context cache: failures, no caching, other accounts *)

Lemma CreateStorageContext_Throws opener path url (w : Session) e w1 :
  CreateStorageContext opener path url w = Throw e w1 ->
  w1 = w /\ ConnectToBlobStorageAccount opener path url = Throws e.
Proof.
  unfold CreateStorageContext, bind, call.
  destruct (ConnectToBlobStorageAccount opener path url) as [client|e']; simpl.
  - discriminate.
  - unfold throw. intros [= <- <-]. auto.
Qed.

Lemma GetOrCreateStorageContext_Throw_state
    (opener : option FileOpener) (path : string) (parsed_url : AzureParsedUrl)
    (w : Session) (e : exception) (w1 : Session) :
  GetOrCreateStorageContext opener path parsed_url w = Throw e w1 -> w1 = w.
Proof.
  intros H.
  destruct (caching_enabled opener) eqn:Hc.
  2:{ rewrite GetOrCreateStorageContext_uncached_eq in H by assumption.
      exact (CreateStorageContext_Throw _ _ _ _ _ _ H). }
  destruct (TryGetClientContext opener) eqn:Hcc.
  2:{ rewrite GetOrCreateStorageContext_no_client_context in H by assumption.
      discriminate. }
  rewrite GetOrCreateStorageContext_cached_eq in H by assumption.
  destruct (registered_state w !! storage_account_name parsed_url) as [p|];
    [destruct (objects w !! p) as [c|]; [|discriminate];
     destruct (is_valid c); [discriminate|]|];
    destruct (CreateStorageContext opener path parsed_url w) as [q w'|e' w'| |] eqn:Hcreate;
    try discriminate; injection H as _ <-;
    exact (CreateStorageContext_Throw _ _ _ _ _ _ Hcreate).
Qed.

(** X14. [GetOrCreateStorageContext] throws only what
    [ConnectToBlobStorageAccount] throws, and then leaves the session,
    the registry of contexts included, as it was. *)
Theorem GetOrCreateStorageContext_throws
    (opener : option FileOpener) (path : string) (parsed_url : AzureParsedUrl)
    (w : Session) (e : exception) (w1 : Session) :
  GetOrCreateStorageContext opener path parsed_url w = Throw e w1 ->
  w1 = w /\ ConnectToBlobStorageAccount opener path parsed_url = Throws e.
Proof.
  intros H.
  destruct (caching_enabled opener) eqn:Hc.
  2:{ rewrite GetOrCreateStorageContext_uncached_eq in H by assumption.
      exact (CreateStorageContext_Throws _ _ _ _ _ _ H). }
  destruct (TryGetClientContext opener) eqn:Hcc.
  2:{ rewrite GetOrCreateStorageContext_no_client_context in H by assumption.
      discriminate. }
  rewrite GetOrCreateStorageContext_cached_eq in H by assumption.
  destruct (registered_state w !! storage_account_name parsed_url) as [p|].
  - destruct (objects w !! p) as [c|]; [|discriminate].
    destruct (is_valid c); [discriminate|].
    destruct (CreateStorageContext opener path parsed_url w) as [q w'|e' w'| |] eqn:Hcreate;
      try discriminate.
    injection H as <- <-. exact (CreateStorageContext_Throws _ _ _ _ _ _ Hcreate).
  - destruct (CreateStorageContext opener path parsed_url w) as [q w'|e' w'| |] eqn:Hcreate;
      try discriminate.
    injection H as <- <-. exact (CreateStorageContext_Throws _ _ _ _ _ _ Hcreate).
Qed.

(** X15. With context caching switched off every access builds a context
    of its own: two accesses in a row return two different, newly
    allocated objects, and the registry is not written. *)
Theorem GetOrCreateStorageContext_without_caching
    (opener : option FileOpener) (path : string) (parsed_url : AzureParsedUrl)
    (w : Session) (client : BlobServiceClient) :
  caching_enabled opener = false ->
  ConnectToBlobStorageAccount opener path parsed_url = Returns client ->
  exists p1 w1 p2 w2,
    GetOrCreateStorageContext opener path parsed_url w = Ok p1 w1 /\
    GetOrCreateStorageContext opener path parsed_url w1 = Ok p2 w2 /\
    p1 <> p2 /\
    objects w !! p1 = None /\
    objects w1 !! p2 = None /\
    objects w2 !! p1
    = Some (AzureBlobContextState_new client (ParseAzureReadOptions opener)) /\
    objects w2 !! p2
    = Some (AzureBlobContextState_new client (ParseAzureReadOptions opener)) /\
    registered_state w2 = registered_state w.
Proof.
  intros Hc Hconnect.
  do 4 eexists.
  rewrite !GetOrCreateStorageContext_uncached_eq by assumption.
  rewrite !(CreateStorageContext_Returns _ _ _ _ client Hconnect).
  split; [reflexivity|]. split; [reflexivity|]. cbn [objects set_objects registered_state].
  rewrite length_app. cbn [List.length].
  split; [lia|].
  split; [apply lookup_ge_None; lia|].
  split; [apply lookup_ge_None; rewrite length_app; cbn; lia|].
  split.
  { rewrite lookup_app_l by (rewrite length_app; cbn; lia).
    apply list_lookup_middle. reflexivity. }
  split; [|reflexivity].
  apply list_lookup_middle. rewrite length_app. reflexivity.
Qed.

(** X16. An access for one account, returning or throwing, leaves the
    registry entries of all other account names, every object allocated
    before, and the request log as they were. *)
Theorem GetOrCreateStorageContext_keeps_others
    (opener : option FileOpener) (path : string) (parsed_url : AzureParsedUrl)
    (w w1 : Session) :
  (exists p, GetOrCreateStorageContext opener path parsed_url w = Ok p w1) \/
  (exists e, GetOrCreateStorageContext opener path parsed_url w = Throw e w1) ->
  (forall name, name <> storage_account_name parsed_url ->
                registered_state w1 !! name = registered_state w !! name) /\
  (forall q c, objects w !! q = Some c -> objects w1 !! q = Some c) /\
  requests w1 = requests w.
Proof.
  intros H.
  assert (requests w1 = requests w) as Hreq.
  { pose proof (GetOrCreateStorageContext_requests opener path parsed_url w) as R.
    destruct H as [[p H]|[e H]]; rewrite H in R; exact R. }
  destruct H as [[p H]|[e H]].
  2:{ apply GetOrCreateStorageContext_Throw_state in H as ->. auto. }
  split; [|split; [|exact Hreq]].
  - intros name Hname.
    destruct (caching_enabled opener) eqn:Hc.
    2:{ rewrite GetOrCreateStorageContext_uncached_eq in H by assumption.
        apply CreateStorageContext_Ok in H as (client & _ & _ & ->). reflexivity. }
    destruct (TryGetClientContext opener) eqn:Hcc.
    2:{ rewrite GetOrCreateStorageContext_no_client_context in H by assumption.
        discriminate. }
    rewrite GetOrCreateStorageContext_cached_eq in H by assumption.
    destruct (registered_state w !! storage_account_name parsed_url) as [p0|] eqn:Hreg.
    + destruct (objects w !! p0) as [c|]; [|discriminate].
      destruct (is_valid c); [injection H as _ <-; reflexivity|].
      destruct (CreateStorageContext opener path parsed_url w) as [q w'| | |] eqn:Hcreate;
        try discriminate.
      injection H as _ <-.
      apply CreateStorageContext_Ok in Hcreate as (client & _ & _ & ->).
      cbn. apply lookup_insert_ne. congruence.
    + destruct (CreateStorageContext opener path parsed_url w) as [q w'| | |] eqn:Hcreate;
        try discriminate.
      injection H as _ <-.
      apply CreateStorageContext_Ok in Hcreate as (client & _ & _ & ->).
      cbn. unfold map_insert_new. rewrite Hreg. apply lookup_insert_ne. congruence.
  - intros q c Hq.
    destruct (caching_enabled opener) eqn:Hc.
    2:{ rewrite GetOrCreateStorageContext_uncached_eq in H by assumption.
        apply CreateStorageContext_Ok in H as (client & _ & _ & ->).
        cbn. apply lookup_app_l_Some, Hq. }
    destruct (TryGetClientContext opener) eqn:Hcc.
    2:{ rewrite GetOrCreateStorageContext_no_client_context in H by assumption.
        discriminate. }
    rewrite GetOrCreateStorageContext_cached_eq in H by assumption.
    destruct (registered_state w !! storage_account_name parsed_url) as [p0|] eqn:Hreg.
    + destruct (objects w !! p0) as [c0|]; [|discriminate].
      destruct (is_valid c0); [injection H as _ <-; exact Hq|].
      destruct (CreateStorageContext opener path parsed_url w) as [q' w'| | |] eqn:Hcreate;
        try discriminate.
      injection H as _ <-.
      apply CreateStorageContext_Ok in Hcreate as (client & _ & _ & ->).
      cbn. apply lookup_app_l_Some, Hq.
    + destruct (CreateStorageContext opener path parsed_url w) as [q' w'| | |] eqn:Hcreate;
        try discriminate.
      injection H as _ <-.
      apply CreateStorageContext_Ok in Hcreate as (client & _ & _ & ->).
      cbn. apply lookup_app_l_Some, Hq.
Qed.

End Further.

(** * The properties on concrete inputs *)

Example CanHandleFile_examples :
  (CanHandleFile "az://data/a", CanHandleFile "azure://data/a",
   CanHandleFile "az:/data", CanHandleFile "", CanHandleFile "s3://az://")
  = (true, true, false, false, false).
Proof. reflexivity. Qed.

Example Match_examples :
  (@Match Demo.host ["logs"; "a.csv"] ["logs"; "*.csv"],
   @Match Demo.host ["logs"; "2024"; "b.csv"] ["logs"; "*.csv"],
   @Match Demo.host ["logs"; "2024"; "b.csv"] ["logs"; "**"; "*.csv"],
   @Match Demo.host ["logs"; "a.csv"] ["logs"; "**"; "*.csv"],
   @Match Demo.host ["logs"; "a.csv"] ["logs"; "**"],
   @Match Demo.host ["logs"] ["logs"; "**"])
  = (true, false, true, true, true, false).
Proof. reflexivity. Qed.

Example Glob_lists_matching_blobs :
  match @Glob Demo.host Demo.sdk Demo.repo "az://data/logs/**" Demo.no_settings 1
          Demo.start with
  | Ok result w => Some (result, requests w)
  | _ => None
  end
  = Some (["az://data/logs/a.csv"; "az://data/logs/2024/b.csv"],
          [ReqListBlobs ("data" : @BlobContainerClient Demo.sdk)
             {| Prefix := Some "logs/"; ContinuationToken := None |}]).
Proof. vm_compute. reflexivity. Qed.

(** The opener that [FileExists] passes on is the default one of
    [OpenFile]; where that is the null opener, [CreateHandle] throws and
    the answer is [false], also for a blob that exists. *)
Example FileExists_with_null_default_opener :
  @FileExists Demo.host Demo.sdk Demo.repo "az://data/a" Demo.start
  = Ok false Demo.start.
Proof. reflexivity. Qed.

Example Read_through_the_buffer :
  string_of_list_byte (buffer Demo.after_read)
  = "llo" ++ String.string_of_list_ascii (repeat zero 5) /\
  buffer_start (hfh Demo.after_read) = 2 /\
  buffer_end (hfh Demo.after_read) = 6 /\
  string_of_list_byte (read_buffer (hfh Demo.after_read)) = "llo,".
Proof. repeat split. Qed.

Lemma Demo_serves_a :
  @serves Demo.sdk (("data", "a") : @BlobClient Demo.sdk) Demo.hello.
Proof.
  split; [vm_compute; reflexivity|]. split; [reflexivity|].
  intros n o Hoff Hlen Hfit.
  change (Z.of_nat (List.length Demo.hello)) with 12 in Hfit.
  change (@DownloadTo Demo.sdk ("data", "a") n o)
    with (if (0 <=? Offset (Range o)) && (0 <=? Length (Range o))
             && (Offset (Range o) + Length (Range o) <=? 12)
             && (Length (Range o) <=? n)
          then Returns (take (Z.to_nat (Length (Range o)))
                          (drop (Z.to_nat (Offset (Range o))) Demo.hello))
          else Throws (StorageException "InvalidRange"
                         "The range specified is invalid." "416")).
  destruct (Z.leb_spec 0 (Offset (Range o))); [|lia].
  destruct (Z.leb_spec 0 (Length (Range o))); [|lia].
  destruct (Z.leb_spec (Offset (Range o) + Length (Range o)) 12); [|lia].
  destruct (Z.leb_spec (Length (Range o)) n); [|lia].
  reflexivity.
Qed.

Lemma Demo_downloads_fit : @downloads_fit Demo.sdk.
Proof.
  intros c n o bs. cbn [DownloadTo Demo.sdk].
  destruct (Demo.blob_of c) as [blob|]; [|discriminate].
  destruct (Z.leb_spec 0 (Length (Range o))); cbn [andb];
    rewrite ?andb_false_r; try discriminate.
  destruct (Z.leb_spec (Length (Range o)) n);
    rewrite ?andb_false_r; try discriminate.
  destruct (_ && _); [|discriminate].
  intros [= <-]. rewrite length_take. lia.
Qed.

Lemma Read_returns_ReadRange_bytes_witness :
  exists st1 st2,
    @Read Demo.host Demo.sdk 7 3 2
      {| hfh := hfh Demo.after_read; buffer := repeat Byte.x00 7; downloads := [] |}
    = Ok tt st1 /\
    @ReadRange Demo.sdk 3 (to_buffer 0) 7
      {| hfh := hfh Demo.after_read; buffer := repeat Byte.x00 7; downloads := [] |}
    = Ok tt st2 /\
    buffer st1 = buffer st2 /\
    buffer st1 = splice (repeat Byte.x00 7) 0 (blob_range Demo.hello 3 7).
Proof.
  apply (@Read_returns_ReadRange_bytes Demo.host Demo.sdk Demo.repo
           Demo.hello "az://data/a" 1 NO_LOCK UNCOMPRESSED Demo.no_settings
           Demo.start Demo.handle_a
           (match @OpenFile Demo.host Demo.sdk Demo.repo "az://data/a" 1 NO_LOCK
                    UNCOMPRESSED Demo.no_settings Demo.start with
            | Ok _ w' => w'
            | _ => Demo.start
            end)).
  - vm_compute. reflexivity.
  - vm_compute. discriminate.
  - vm_compute. split; [discriminate | reflexivity].
  - exact Demo_serves_a.
  - apply (reachable_Read Demo.handle_a Demo.handle_a (repeat Byte.x00 8) [] 3 2 2
             Demo.after_read).
    + apply reachable_opened.
    + lia.
    + lia.
    + vm_compute. discriminate.
    + vm_compute. discriminate.
    + lia.
    + vm_compute. reflexivity.
  - lia.
  - lia.
  - vm_compute. discriminate.
  - vm_compute. discriminate.
  - lia.
Defined.

(** C2, as the specification words it, fails: [**] at the end of the
    pattern may stand for zero key segments there, so the key [a] is
    matched by the pattern [a/**]; [Match] rejects it. *)
Lemma Match_rejects_trailing_globstar :
  @spec_segments_match Demo.host ["a"] ["a"; "**"] /\
  @Match Demo.host ["a"] ["a"; "**"] = false.
Proof.
  split; [|reflexivity].
  apply spec_match_one; [discriminate | reflexivity |].
  apply (spec_match_globstar [] [] []). apply spec_match_end.
Qed.

Lemma Glob_literal_path_witness :
  exists w1,
    @Glob Demo.host Demo.sdk Demo.repo "az://data/logs/a.csv" Demo.no_settings 0
      Demo.start
    = Ok ["az://data/logs/a.csv"] w1 /\
    requests w1 = requests Demo.start.
Proof.
  eexists.
  apply (@Glob_literal_path Demo.host Demo.sdk Demo.repo
           "az://data/logs/a.csv" Demo.no_settings 0 Demo.start
           {| is_fully_qualified := false; url_prefix := "az://";
              storage_account_name := ""; endpoint := ""; container := "data";
              url_path := "logs/a.csv" |} 0%nat).
  - discriminate.
  - reflexivity.
  - apply find_first_of_None. reflexivity.
  - vm_compute. reflexivity.
Defined.

Lemma Glob_question_mark_literal_witness :
  exists w1,
    wildcard_chars = String "*" (String "[" (String "\" EmptyString)) /\
    @Glob Demo.host Demo.sdk Demo.repo "az://data/what?.csv" Demo.no_settings 0
      Demo.start
    = Ok ["az://data/what?.csv"] w1 /\
    requests w1 = requests Demo.start.
Proof.
  eexists.
  apply (@Glob_question_mark_literal Demo.host Demo.sdk Demo.repo
           "az://data/what?.csv" Demo.no_settings 0 Demo.start
           {| is_fully_qualified := false; url_prefix := "az://";
              storage_account_name := ""; endpoint := ""; container := "data";
              url_path := "what?.csv" |} 0%nat).
  - discriminate.
  - reflexivity.
  - reflexivity.
  - reflexivity.
  - reflexivity.
  - reflexivity.
  - vm_compute. reflexivity.
Defined.

Lemma OpenFile_write_not_implemented_witness :
  @OpenFile Demo.host Demo.sdk Demo.repo "az://data/a" 3 NO_LOCK UNCOMPRESSED
    Demo.no_settings Demo.start
  = Throw (NotImplementedException
             "Writing to Azure containers is currently not supported") Demo.start.
Proof.
  apply (@OpenFile_write_not_implemented Demo.host Demo.sdk Demo.repo).
  - right. reflexivity.
  - vm_compute. discriminate.
Defined.

Lemma Read_bypasses_buffer_witness :
  exists st',
    (@Read Demo.host Demo.sdk 8 2 1 Demo.before_read = Ok tt st' \/
     exists e, @Read Demo.host Demo.sdk 8 2 1 Demo.before_read = Throw e st') /\
    downloads st' = [download_of Demo.handle_a 2 (to_buffer 0) 8] /\
    read_buffer (hfh st') = [Byte.x00; Byte.x00; Byte.x00; Byte.x00] /\
    buffer_start (hfh st') = 0 /\
    buffer_end (hfh st') = 0 /\
    buffer_available (hfh st') = 0.
Proof.
  apply (@Read_bypasses_buffer Demo.host Demo.sdk Demo.before_read 8 2 1).
  - exact Demo_downloads_fit.
  - constructor; vm_compute; try split; discriminate || reflexivity.
  - reflexivity.
  - lia.
  - lia.
  - vm_compute. reflexivity.
  - vm_compute. discriminate.
  - lia.
  - vm_compute. reflexivity.
Defined.

Lemma context_cache_reuse_and_renewal_witness :
  exists w1,
    @GetOrCreateStorageContext Demo.host Demo.sdk Demo.repo
      Demo.no_settings "az://data/a" Demo.url_a Demo.start = Ok 0%nat w1 /\
    @GetOrCreateStorageContext Demo.host Demo.sdk Demo.repo
      Demo.no_settings "az://data/logs/a.csv" Demo.url_a w1 = Ok 0%nat w1 /\
    exists w3,
      @QueryEnd Demo.sdk 0 w1 = Ok tt w3 /\
      forall client,
        @ConnectToBlobStorageAccount Demo.host Demo.sdk Demo.repo
          Demo.no_settings "az://data/logs/a.csv" Demo.url_a = Returns client ->
        exists w4,
          let p' := List.length (objects w3) in
          @GetOrCreateStorageContext Demo.host Demo.sdk Demo.repo
            Demo.no_settings "az://data/logs/a.csv" Demo.url_a w3 = Ok p' w4 /\
          p' <> 0%nat /\
          objects w3 !! p' = None /\
          objects w4 !! p'
          = Some (AzureBlobContextState_new client
                    (@ParseAzureReadOptions Demo.host Demo.sdk Demo.repo
                       Demo.no_settings)) /\
          @GetOrCreateStorageContext Demo.host Demo.sdk Demo.repo
            Demo.no_settings "az://data/logs/a.csv" Demo.url_a w4 = Ok p' w4.
Proof.
  eexists. split; [vm_compute; reflexivity|].
  eapply (@context_cache_reuse_and_renewal Demo.host Demo.sdk Demo.repo
            Demo.no_settings "az://data/a" Demo.url_a Demo.start 0%nat).
  - reflexivity.
  - vm_compute. reflexivity.
  - apply accesses_done.
  - reflexivity.
  - reflexivity.
  - reflexivity.
Defined.

Lemma GetLastModifiedTime_is_zero_witness :
  GetLastModifiedTime Demo.handle_a = 0 /\
  forall handle',
    @used Demo.host Demo.sdk Demo.handle_a handle' ->
    GetLastModifiedTime handle' = 0.
Proof.
  eapply (@GetLastModifiedTime_is_zero Demo.host Demo.sdk Demo.repo
            "az://data/a" 1 NO_LOCK UNCOMPRESSED Demo.no_settings Demo.start
            Demo.handle_a).
  vm_compute. reflexivity.
Defined.

(** * The further properties on concrete inputs *)

Lemma Demo_handle_a_holds : @handle_holds Demo.sdk Demo.hello Demo.handle_a.
Proof.
  apply (@opened_holds Demo.host Demo.sdk Demo.repo Demo.hello "az://data/a" 1
           NO_LOCK UNCOMPRESSED Demo.no_settings Demo.start Demo.handle_a
           (match @OpenFile Demo.host Demo.sdk Demo.repo "az://data/a" 1 NO_LOCK
                    UNCOMPRESSED Demo.no_settings Demo.start with
            | Ok _ w' => w'
            | _ => Demo.start
            end)).
  - vm_compute. reflexivity.
  - vm_compute. discriminate.
  - vm_compute. split; [discriminate | reflexivity].
  - exact Demo_serves_a.
Qed.

Lemma Demo_after_read_reachable :
  @reachable Demo.host Demo.sdk Demo.handle_a (hfh Demo.after_read).
Proof.
  apply (reachable_Read Demo.handle_a Demo.handle_a (repeat Byte.x00 8) [] 3 2 2
           Demo.after_read).
  - apply reachable_opened.
  - lia.
  - lia.
  - vm_compute. discriminate.
  - vm_compute. discriminate.
  - lia.
  - vm_compute. reflexivity.
Qed.

Lemma FileExists_false_without_default_opener_witness :
  @FileExists Demo.host Demo.sdk Demo.repo "az://data/a" Demo.start
  = Ok false Demo.start.
Proof.
  apply (@FileExists_false_without_default_opener Demo.host Demo.sdk Demo.repo).
  reflexivity.
Defined.

Lemma OpenFile_returns_witness :
  exists w',
    @OpenFile Demo.host Demo.sdk Demo.repo "az://data/a" 1 NO_LOCK UNCOMPRESSED
      Demo.no_settings Demo.start = Ok Demo.handle_a w' /\
    Z.land 1 (@FILE_FLAGS_WRITE Demo.host) = 0 /\
    Demo.no_settings <> None /\
    (exists BlobSize,
        @GetProperties Demo.sdk (blob_client Demo.handle_a) = Returns BlobSize /\
        fh_length Demo.handle_a = u64 BlobSize) /\
    fh_path Demo.handle_a = "az://data/a" /\
    fh_flags Demo.handle_a = 1 /\
    file_offset Demo.handle_a = 0 /\
    buffer_available Demo.handle_a = 0 /\
    buffer_start Demo.handle_a = 0 /\
    buffer_end Demo.handle_a = 0 /\
    requests w'
    = (requests Demo.start ++ [ReqGetProperties (blob_client Demo.handle_a)])%list.
Proof.
  eexists. split; [vm_compute; reflexivity|].
  apply (@OpenFile_returns Demo.host Demo.sdk Demo.repo "az://data/a" 1 NO_LOCK
           UNCOMPRESSED Demo.no_settings Demo.start).
  vm_compute. reflexivity.
Defined.

Lemma GetFileSize_is_blob_size_witness :
  GetFileSize (hfh Demo.after_read) = 12.
Proof.
  apply (@GetFileSize_is_blob_size Demo.host Demo.sdk Demo.repo "az://data/a" 1
           NO_LOCK UNCOMPRESSED Demo.no_settings Demo.start Demo.handle_a
           (match @OpenFile Demo.host Demo.sdk Demo.repo "az://data/a" 1 NO_LOCK
                    UNCOMPRESSED Demo.no_settings Demo.start with
            | Ok _ w' => w'
            | _ => Demo.start
            end)).
  - vm_compute. reflexivity.
  - reflexivity.
  - vm_compute. split; [discriminate | reflexivity].
  - apply (used_Read Demo.handle_a Demo.handle_a (repeat Byte.x00 8) [] 3 2 2
             Demo.after_read).
    + apply used_opened.
    + left. vm_compute. reflexivity.
Defined.


Lemma Read_from_window_witness :
  exists st',
    @Read Demo.host Demo.sdk 2 3 1 Demo.later_read = Ok tt st' /\
    downloads st' = downloads Demo.later_read /\
    buffer st'
    = splice (buffer Demo.later_read) 0
        (take (Z.to_nat 2)
           (drop (Z.to_nat (3 - buffer_start (hfh Demo.later_read)))
              (read_buffer (hfh Demo.later_read)))) /\
    read_buffer (hfh st') = read_buffer (hfh Demo.later_read) /\
    buffer_start (hfh st') = buffer_start (hfh Demo.later_read) /\
    buffer_end (hfh st') = buffer_end (hfh Demo.later_read) /\
    file_offset (hfh st') = 3 + 2 /\
    buffer_available (hfh st') = buffer_end (hfh Demo.later_read) - (3 + 2).
Proof.
  apply (@Read_from_window Demo.host Demo.sdk Demo.later_read 2 3 1).
  - constructor; vm_compute; try split; discriminate || reflexivity.
  - reflexivity.
  - lia.
  - vm_compute. split; [reflexivity | discriminate].
  - vm_compute. discriminate.
  - lia.
Defined.

Lemma Read_refills_buffer_witness :
  exists st',
    @Read Demo.host Demo.sdk 3 2 2 Demo.before_read = Ok tt st' /\
    downloads st'
    = (downloads Demo.before_read
       ++ [download_of (hfh Demo.before_read) 2 to_read_buffer
             (Z.min (buffer_size (fh_read_options (hfh Demo.before_read)))
                (Z.of_nat (List.length Demo.hello) - 2))])%list /\
    buffer st' = splice (buffer Demo.before_read) 0 (blob_range Demo.hello 2 3) /\
    buffer_start (hfh st') = 2 /\
    buffer_end (hfh st')
    = 2 + Z.min (buffer_size (fh_read_options (hfh Demo.before_read)))
            (Z.of_nat (List.length Demo.hello) - 2) /\
    take (Z.to_nat (Z.min (buffer_size (fh_read_options (hfh Demo.before_read)))
                      (Z.of_nat (List.length Demo.hello) - 2)))
      (read_buffer (hfh st'))
    = blob_range Demo.hello 2
        (Z.min (buffer_size (fh_read_options (hfh Demo.before_read)))
           (Z.of_nat (List.length Demo.hello) - 2)) /\
    file_offset (hfh st') = 2 + 3 /\
    buffer_available (hfh st')
    = Z.min (buffer_size (fh_read_options (hfh Demo.before_read)))
        (Z.of_nat (List.length Demo.hello) - 2) - 3.
Proof.
  apply (@Read_refills_buffer Demo.host Demo.sdk Demo.hello Demo.before_read 3 2 2).
  - exact Demo_handle_a_holds.
  - reflexivity.
  - lia.
  - reflexivity.
  - vm_compute. split; [reflexivity | discriminate].
  - vm_compute. discriminate.
  - lia.
Defined.


Lemma Read_at_offset_streams_witness :
  exists st',
    @Read_at_offset Demo.host Demo.sdk 100 2 Demo.later_read
    = Ok (Z.min (Z.of_nat (List.length Demo.hello)
                 - file_offset (hfh Demo.later_read)) 100) st' /\
    buffer st'
    = splice (buffer Demo.later_read) 0
        (blob_range Demo.hello (file_offset (hfh Demo.later_read))
           (Z.min (Z.of_nat (List.length Demo.hello)
                   - file_offset (hfh Demo.later_read)) 100)) /\
    file_offset (hfh st')
    = file_offset (hfh Demo.later_read)
      + Z.min (Z.of_nat (List.length Demo.hello)
               - file_offset (hfh Demo.later_read)) 100 /\
    @handle_holds Demo.sdk Demo.hello (hfh st').
Proof.
  apply (@Read_at_offset_streams Demo.host Demo.sdk Demo.hello Demo.later_read 100 2).
  - exact (@reachable_holds Demo.host Demo.sdk Demo.hello Demo.handle_a _
             Demo_handle_a_holds Demo_after_read_reachable).
  - lia.
  - lia.
  - vm_compute. discriminate.
  - vm_compute. discriminate.
Defined.

Lemma Seek_then_Read_at_offset_witness :
  exists st',
    @Read_at_offset Demo.host Demo.sdk 4 2
      (set_hfh (fun h => Seek h 10) Demo.before_read)
    = Ok (s64 (MinValue_idx_t (u64 (fh_length (hfh Demo.before_read) - 10)) 4)) st'.
Proof.
  eexists.
  apply (@Seek_then_Read_at_offset Demo.host Demo.sdk 4 10 2 Demo.before_read).
  vm_compute. reflexivity.
Defined.

Lemma buffer_window_holds_blob_witness :
  0 <= buffer_start (hfh Demo.after_read) <= buffer_end (hfh Demo.after_read) /\
  buffer_end (hfh Demo.after_read) <= Z.of_nat (List.length Demo.hello) /\
  buffer_end (hfh Demo.after_read) - buffer_start (hfh Demo.after_read)
  <= buffer_size (fh_read_options Demo.handle_a) /\
  0 <= buffer_idx (hfh Demo.after_read) /\
  0 <= buffer_available (hfh Demo.after_read) /\
  buffer_idx (hfh Demo.after_read) + buffer_available (hfh Demo.after_read)
  <= buffer_end (hfh Demo.after_read) - buffer_start (hfh Demo.after_read) /\
  take (Z.to_nat (buffer_end (hfh Demo.after_read)
                  - buffer_start (hfh Demo.after_read)))
    (read_buffer (hfh Demo.after_read))
  = blob_range Demo.hello (buffer_start (hfh Demo.after_read))
      (buffer_end (hfh Demo.after_read) - buffer_start (hfh Demo.after_read)).
Proof.
  apply (@buffer_window_holds_blob Demo.host Demo.sdk Demo.repo Demo.hello
           "az://data/a" 1 NO_LOCK UNCOMPRESSED Demo.no_settings Demo.start
           Demo.handle_a
           (match @OpenFile Demo.host Demo.sdk Demo.repo "az://data/a" 1 NO_LOCK
                    UNCOMPRESSED Demo.no_settings Demo.start with
            | Ok _ w' => w'
            | _ => Demo.start
            end)).
  - vm_compute. reflexivity.
  - vm_compute. discriminate.
  - vm_compute. split; [discriminate | reflexivity].
  - exact Demo_serves_a.
  - exact Demo_after_read_reachable.
Defined.

Lemma Read_throws_no_StorageException_witness :
  is_StorageException
    (IOException
       "AzureBlobStorageFileSystem Read to az://data/a failed with InvalidRangeReason Phrase: The range specified is invalid.")
  = false.
Proof.
  eapply (@Read_throws_no_StorageException Demo.host Demo.sdk 20 0 2
            {| hfh := Demo.handle_a; buffer := repeat Byte.x00 20; downloads := [] |}).
  left. vm_compute. reflexivity.
Defined.

Lemma Glob_returns_matching_blobs_witness :
  String.prefix "logs/" "logs/**" = true /\
  find_first_of "logs/" wildcard_chars = None /\
  exists w',
    @Glob Demo.host Demo.sdk Demo.repo "az://data/logs/**" Demo.no_settings 1
      Demo.start
    = Ok ["az://data/logs/a.csv"; "az://data/logs/2024/b.csv"] w' /\
    requests w'
    = [ReqListBlobs ("data" : @BlobContainerClient Demo.sdk)
         {| Prefix := Some "logs/"; ContinuationToken := None |}].
Proof.
  apply (@Glob_returns_matching_blobs Demo.host Demo.sdk Demo.repo
           "az://data/logs/**" Demo.no_settings 1 Demo.start
           {| is_fully_qualified := false; url_prefix := "az://";
              storage_account_name := ""; endpoint := ""; container := "data";
              url_path := "logs/**" |}
           0%nat
           (match @GetOrCreateStorageContext Demo.host Demo.sdk Demo.repo
                    Demo.no_settings "az://data/logs/**" Demo.url_a Demo.start with
            | Ok _ w1 => w1
            | _ => Demo.start
            end)
           (AzureBlobContextState_new (tt : @BlobServiceClient Demo.sdk)
              (@AzureReadOptions_default Demo.host Demo.sdk Demo.repo))
           5%nat
           [{| Blobs := ["logs/a.csv"; "logs/2024/b.csv"]; NextPageToken := None |}]).
  - discriminate.
  - reflexivity.
  - vm_compute. reflexivity.
  - vm_compute. reflexivity.
  - reflexivity.
  - apply pages_last; reflexivity.
  - simpl. lia.
Defined.

Lemma Match_without_globstar_witness :
  @Match Demo.host ["logs"; "a.csv"] ["logs"; "*.csv"] = true <->
  Forall2 (fun k p => @LikeFun_Glob Demo.host k p = true)
    ["logs"; "a.csv"] ["logs"; "*.csv"].
Proof.
  apply (@Match_without_globstar Demo.host).
  intros p [<-|[<-|[]]]; discriminate.
Defined.

Lemma GetOrCreateStorageContext_throws_witness :
  Demo.start = Demo.start /\
  @ConnectToBlobStorageAccount Demo.host Demo.sdk Demo.repo_offline
    Demo.no_settings "az://data/a" Demo.url_a
  = Throws (std_exception "No such host is known").
Proof.
  apply (@GetOrCreateStorageContext_throws Demo.host Demo.sdk Demo.repo_offline
           Demo.no_settings "az://data/a" Demo.url_a Demo.start).
  vm_compute. reflexivity.
Defined.

Lemma GetOrCreateStorageContext_without_caching_witness :
  exists p1 w1 p2 w2,
    @GetOrCreateStorageContext Demo.host Demo.sdk Demo.repo
      Demo.no_caching "az://data/a" Demo.url_a Demo.start = Ok p1 w1 /\
    @GetOrCreateStorageContext Demo.host Demo.sdk Demo.repo
      Demo.no_caching "az://data/a" Demo.url_a w1 = Ok p2 w2 /\
    p1 <> p2 /\
    objects Demo.start !! p1 = None /\
    objects w1 !! p2 = None /\
    objects w2 !! p1
    = Some (AzureBlobContextState_new (tt : @BlobServiceClient Demo.sdk)
              (@ParseAzureReadOptions Demo.host Demo.sdk Demo.repo Demo.no_caching)) /\
    objects w2 !! p2
    = Some (AzureBlobContextState_new (tt : @BlobServiceClient Demo.sdk)
              (@ParseAzureReadOptions Demo.host Demo.sdk Demo.repo Demo.no_caching)) /\
    registered_state w2 = registered_state Demo.start.
Proof.
  apply (@GetOrCreateStorageContext_without_caching Demo.host Demo.sdk Demo.repo
           Demo.no_caching "az://data/a" Demo.url_a Demo.start).
  - reflexivity.
  - reflexivity.
Defined.

Lemma GetOrCreateStorageContext_keeps_others_witness :
  exists w1,
    (forall name, name <> storage_account_name Demo.url_a ->
                  registered_state w1 !! name = registered_state Demo.start !! name) /\
    (forall q c, objects Demo.start !! q = Some c -> objects w1 !! q = Some c) /\
    requests w1 = requests Demo.start.
Proof.
  eexists.
  apply (@GetOrCreateStorageContext_keeps_others Demo.host Demo.sdk Demo.repo
           Demo.no_settings "az://data/a" Demo.url_a Demo.start).
  left. exists 0%nat. vm_compute. reflexivity.
Defined.

